(** * fjc_judges: name permutations and composite lookup keys

    A shallow embedding of [judges/fjc_create.py] and [judges/fjc_match.py].

    Conventions of the model.
    - A Python [str] is a Rocq [string]; the text handled is ASCII, so
      [str.upper] maps [a-z] to [A-Z] and leaves every other character alone,
      and [str.strip] removes the ASCII characters for which [str.isspace]
      holds.
    - A pandas [DataFrame] is the list of its rows in order; where the row
      labels matter (boolean filtering keeps them, [df.loc] reads them) a
      frame is a list of (label, row) pairs.
    - A row is a record of the columns the functions read or write; the
      order of the columns in a table is not part of the model.
    - A column is the list of the values of one field, one per row.
    - A numeric column read from a file holds 64-bit integers ([int] is
      64 bits wide); arithmetic on columns wraps around.
    - Writing a table to a file and reading the file gives the table back;
      the CSV format itself is outside the model.
    - An exception is a value of [exn]; code that can raise returns
      [result].
    - The constants of the module [instructions], which is not part of the
      sources at hand, are section variables. *)

From Stdlib Require Import ZArith QArith Ascii String List Lia.
From stdpp Require Import base tactics option list strings pretty gmap.

Local Open Scope Z_scope.

(** ** Exceptions *)

Inductive exn : Type :=
| KeyError
| ValueError
| IndexError
| ZeroDivisionError
| OverflowError
| FileNotFoundError.

Inductive result (A : Type) : Type :=
| Ok (a : A)
| Raise (e : exn).
Arguments Ok {A} a.
Arguments Raise {A} e.

Definition rbind {A B : Type} (m : result A) (k : A → result B) : result B :=
  match m with
  | Ok a => k a
  | Raise e => Raise e
  end.

Notation "'let*' x ':=' m 'in' k" := (rbind m (fun x => k))
  (at level 10, x name, m at level 100, k at level 200, only parsing).

(** [df.apply(f, axis = 'columns')]: the rows are visited in order and the
    first exception aborts the whole call. *)
Fixpoint apply_rows {A B : Type} (f : A → result B) (l : list A)
  : result (list B) :=
  match l with
  | [] => Ok []
  | a :: l' =>
      let* b := f a in
      let* bs := apply_rows f l' in
      Ok (b :: bs)
  end.

(** ** Python strings *)

Module PyStr.

Definition code (c : ascii) : N := N_of_ascii c.

(** [str.isspace] on one ASCII character. *)
Definition isspace (c : ascii) : bool :=
  let n := code c in
  ((9 <=? n) && (n <=? 13) || (28 <=? n) && (n <=? 32))%N.

Definition isdigit (c : ascii) : bool :=
  let n := code c in ((48 <=? n) && (n <=? 57))%N.

Definition upper_char (c : ascii) : ascii :=
  let n := code c in
  if ((97 <=? n) && (n <=? 122))%N then ascii_of_N (n - 32) else c.

Fixpoint upper (s : string) : string :=
  match s with
  | EmptyString => EmptyString
  | String c s' => String (upper_char c) (upper s')
  end.

Fixpoint lstrip (s : string) : string :=
  match s with
  | EmptyString => EmptyString
  | String c s' => if isspace c then lstrip s' else s
  end.

Fixpoint rstrip (s : string) : string :=
  match s with
  | EmptyString => EmptyString
  | String c s' =>
      match rstrip s' with
      | EmptyString => if isspace c then EmptyString else String c EmptyString
      | r => String c r
      end
  end.

Definition strip (s : string) : string := rstrip (lstrip s).

(** The characters matched by the pattern ["\.|\,|\[|\]|\'"]. *)
Definition is_punct (c : ascii) : bool :=
  match c with
  | "."%char | ","%char | "["%char | "]"%char | "'"%char => true
  | _ => false
  end.

(** [re.sub("\.|\,|\[|\]|\'", '', s)] *)
Fixpoint re_sub_punct (s : string) : string :=
  match s with
  | EmptyString => EmptyString
  | String c s' =>
      if is_punct c then re_sub_punct s' else String c (re_sub_punct s')
  end.

(** [sub in s] for a separator of one character. *)
Fixpoint contains_char (c : ascii) (s : string) : bool :=
  match s with
  | EmptyString => false
  | String d s' => if decide (d = c) then true else contains_char c s'
  end.

(** [c + c in s]: the character [c] occurs twice in a row. *)
Fixpoint contains_double (c : ascii) (s : string) : bool :=
  match s with
  | String d ((String e _) as s') =>
      if decide (d = c ∧ e = c) then true else contains_double c s'
  | _ => false
  end.

(** [s.split(c)] for a separator of one character: never empty. *)
Fixpoint split (c : ascii) (s : string) : list string :=
  match s with
  | EmptyString => [EmptyString]
  | String d s' =>
      if decide (d = c) then EmptyString :: split c s'
      else match split c s' with
           | [] => [String d EmptyString]
           | w :: ws => String d w :: ws
           end
  end.

Definition digit_val (c : ascii) : Z := Z.of_N (code c) - 48.

(** The digits of an [int] literal: decimal digits, a single underscore
    allowed between two digits. [seen] tells whether the previous character
    was a digit. *)
Fixpoint int_digits (s : string) (acc : Z) (seen : bool) : option Z :=
  match s with
  | EmptyString => if seen then Some acc else None
  | String c s' =>
      if isdigit c then int_digits s' (acc * 10 + digit_val c) true
      else if decide (c = "_"%char)
           then (if seen then int_digits s' acc false else None)
           else None
  end.

(** The white space [int] skips around a literal: the characters 9 to 13
    and the blank.  It is a smaller set than that of [str.isspace]: the
    separators 28 to 31 are not skipped. *)
Definition int_isspace (c : ascii) : bool :=
  let n := code c in ((9 <=? n) && (n <=? 13) || (n =? 32))%N.

Fixpoint int_lstrip (s : string) : string :=
  match s with
  | EmptyString => EmptyString
  | String c s' => if int_isspace c then int_lstrip s' else s
  end.

Fixpoint int_rstrip (s : string) : string :=
  match s with
  | EmptyString => EmptyString
  | String c s' =>
      match int_rstrip s' with
      | EmptyString =>
          if int_isspace c then EmptyString else String c EmptyString
      | r => String c r
      end
  end.

Definition int_strip (s : string) : string := int_rstrip (int_lstrip s).

(** The number of decimal digits in a literal; underscores do not count. *)
Fixpoint count_digits (s : string) : nat :=
  match s with
  | EmptyString => O
  | String c s' => if isdigit c then S (count_digits s') else count_digits s'
  end.

(** [sys.int_info.default_max_str_digits]: the interpreter refuses to
    convert a literal with more digits. *)
Definition max_str_digits : nat := 4300.

(** The digits of a literal, read within the limit. *)
Definition int_limited (s : string) : option Z :=
  if (count_digits s <=? max_str_digits)%nat then int_digits s 0 false
  else None.

(** [int(s)] on a string: the white space around the literal is skipped, one
    sign is accepted, and a literal of more than 4300 digits is refused;
    [None] stands for [ValueError]. *)
Definition int (s : string) : option Z :=
  match int_strip s with
  | String "-" s' => Z.opp <$> int_limited s'
  | String "+" s' => int_limited s'
  | s' => int_limited s'
  end.

(** [str(n)] for an integer. *)
Definition str (n : Z) : string := pretty n.

End PyStr.

(** ** 64-bit integers of a numeric column *)

Definition wrap64 (z : Z) : Z := (z + 2 ^ 63) mod 2 ^ 64 - 2 ^ 63.
Definition i64_mul (a b : Z) : Z := wrap64 (a * b).
Definition i64_add (a b : Z) : Z := wrap64 (a + b).
Definition in_int64 (z : Z) : Prop := - 2 ^ 63 <= z < 2 ^ 63.

(** ** The wide table: one row per judge and service assignment *)

(** The value [pd.to_datetime] gives for a date cell; [None] in a date column
    is [NaT]. *)
Record date : Type := { dt_year : Z; dt_month : Z; dt_day : Z }.

Module Wide.

(** The columns of the combined table that the functions below read or
    write.  A column a function has not written yet holds its empty value
    ([None], the empty string).  [None] in [start_year] or [end_year] is
    [NaN].  [court_num] and [circuit_num] are the integer codes of the
    court; a row whose court has no code is outside the model. *)
Record row : Type := {
  nid : Z;
  judge_name : string;
  first_name : string;
  middle_name : string;
  last_name : string;
  court_num : Z;
  circuit_num : Z;
  senate_vote_type : string;
  senate_vote : string;
  senate_percent : option Q;
  start_date : option date;
  termination_date : option date;
  start_year : option Z;
  end_year : option Z;
  name_perm1 : string;
  name_perm2 : string;
  name_perm3 : string;
  name_perm4 : string;
  name_perm5 : string;
  name_perm6 : string;
  name_perm7 : string
}.

(** [row['senate_percent'] = v] *)
Definition set_senate_percent (v : Q) (r : row) : row :=
  {| nid := nid r; judge_name := judge_name r;
     first_name := first_name r; middle_name := middle_name r;
     last_name := last_name r;
     court_num := court_num r; circuit_num := circuit_num r;
     senate_vote_type := senate_vote_type r; senate_vote := senate_vote r;
     senate_percent := Some v;
     start_date := start_date r; termination_date := termination_date r;
     start_year := start_year r; end_year := end_year r;
     name_perm1 := name_perm1 r; name_perm2 := name_perm2 r;
     name_perm3 := name_perm3 r; name_perm4 := name_perm4 r;
     name_perm5 := name_perm5 r; name_perm6 := name_perm6 r;
     name_perm7 := name_perm7 r |}.

(** [df['end_year'] = e] and [df['start_year'] = s], seen on one row. *)
Definition set_years (s e : option Z) (r : row) : row :=
  {| nid := nid r; judge_name := judge_name r;
     first_name := first_name r; middle_name := middle_name r;
     last_name := last_name r;
     court_num := court_num r; circuit_num := circuit_num r;
     senate_vote_type := senate_vote_type r; senate_vote := senate_vote r;
     senate_percent := senate_percent r;
     start_date := start_date r; termination_date := termination_date r;
     start_year := s; end_year := e;
     name_perm1 := name_perm1 r; name_perm2 := name_perm2 r;
     name_perm3 := name_perm3 r; name_perm4 := name_perm4 r;
     name_perm5 := name_perm5 r; name_perm6 := name_perm6 r;
     name_perm7 := name_perm7 r |}.

(** [row['first_name'] = f], [row['middle_name'] = m] and
    [row['last_name'] = l]. *)
Definition set_names (f m l : string) (r : row) : row :=
  {| nid := nid r; judge_name := judge_name r;
     first_name := f; middle_name := m; last_name := l;
     court_num := court_num r; circuit_num := circuit_num r;
     senate_vote_type := senate_vote_type r; senate_vote := senate_vote r;
     senate_percent := senate_percent r;
     start_date := start_date r; termination_date := termination_date r;
     start_year := start_year r; end_year := end_year r;
     name_perm1 := name_perm1 r; name_perm2 := name_perm2 r;
     name_perm3 := name_perm3 r; name_perm4 := name_perm4 r;
     name_perm5 := name_perm5 r; name_perm6 := name_perm6 r;
     name_perm7 := name_perm7 r |}.

(** [row['name_perm1'] = p1] ... [row['name_perm7'] = p7]. *)
Definition set_perms (p1 p2 p3 p4 p5 p6 p7 : string) (r : row) : row :=
  {| nid := nid r; judge_name := judge_name r;
     first_name := first_name r; middle_name := middle_name r;
     last_name := last_name r;
     court_num := court_num r; circuit_num := circuit_num r;
     senate_vote_type := senate_vote_type r; senate_vote := senate_vote r;
     senate_percent := senate_percent r;
     start_date := start_date r; termination_date := termination_date r;
     start_year := start_year r; end_year := end_year r;
     name_perm1 := p1; name_perm2 := p2; name_perm3 := p3;
     name_perm4 := p4; name_perm5 := p5; name_perm6 := p6;
     name_perm7 := p7 |}.

(** The seven permutation columns, in the order of their suffix. *)
Definition perms (r : row) : list string :=
  [name_perm1 r; name_perm2 r; name_perm3 r; name_perm4 r;
   name_perm5 r; name_perm6 r; name_perm7 r].

(** A table with its row labels (the pandas index). *)
Abbreviation frame := (list (Z * row)).

(** The row labels a table has when nothing has set its index:
    [0, 1, ..., len - 1]. *)
Definition range_index (rows : list row) : frame :=
  zip (Z.of_nat <$> seq 0 (length rows)) rows.

End Wide.

(** ** [encode_senate_vote] *)

(** [int(s)], raising [ValueError] where the text is no integer. *)
Definition py_int (s : string) : result Z :=
  match PyStr.int s with
  | Some z => Ok z
  | None => Raise ValueError
  end.

(** The quotient [a / b] is too large for a double: rounded to the nearest
    double it would reach 2^1024, which is the case from the midpoint
    2^1024 - 2^970 between the largest double and 2^1024 on. *)
Definition float_overflow (a b : Z) : bool :=
  bool_decide ((2 ^ 1024 - 2 ^ 970) * Z.abs b <= Z.abs a).

(** [a / b] on integers: [ZeroDivisionError] for a zero divisor,
    [OverflowError] for a quotient too large for a double.  The value is the
    exact quotient; Python rounds it to the nearest double. *)
Definition true_div (a b : Z) : result Q :=
  if decide (b = 0) then Raise ZeroDivisionError
  else if float_overflow a b then Raise OverflowError
  else Ok (Qred (inject_Z a / inject_Z b)).

Definition encode_senate_vote (row : Wide.row) : result Wide.row :=
  if decide (Wide.senate_vote_type row = "Voice")
  then Ok (Wide.set_senate_percent 1 row)
  else if PyStr.contains_char "/" (Wide.senate_vote row)
          && negb (PyStr.contains_double "/" (Wide.senate_vote row))
  then
    match PyStr.split "/" (Wide.senate_vote row) with
    | [yeas; neas] =>
        let* y := py_int yeas in
        let* n := py_int neas in
        let* q := true_div y (y + n) in
        Ok (Wide.set_senate_percent q row)
    | _ => Raise ValueError
    end
  else Ok (Wide.set_senate_percent 0 row).

(** ** [time_limit] *)

(** Comparisons of a float cell with an integer: [NaN] compares false. *)
Definition cell_gt (c : option Z) (b : Z) : bool :=
  match c with
  | Some v => bool_decide (v > b)
  | None => false
  end.
Definition cell_le (c : option Z) (b : Z) : bool :=
  match c with
  | Some v => bool_decide (v <= b)
  | None => false
  end.

Section TimeLimit.

(** [instructions.START_YEAR] and [instructions.END_YEAR]. *)
Variables START_YEAR END_YEAR : Z.

(** [df['termination_date'].dt.year] with [NaN] replaced by [END_YEAR]. *)
Definition end_year_of (r : Wide.row) : option Z :=
  Some (default END_YEAR (dt_year <$> Wide.termination_date r)).

(** [df['start_date'].dt.year] *)
Definition start_year_of (r : Wide.row) : option Z :=
  dt_year <$> Wide.start_date r.

Definition time_limit_columns (r : Wide.row) : Wide.row :=
  Wide.set_years (start_year_of r) (end_year_of r) r.

Definition time_limit (df : Wide.frame) : Wide.frame :=
  let df := prod_map id time_limit_columns <$> df in
  let df :=
    List.filter (λ lr, cell_gt (Wide.end_year lr.2) (START_YEAR - 2)) df in
  let df :=
    List.filter (λ lr, cell_le (Wide.start_year lr.2) END_YEAR) df in
  df.

End TimeLimit.

(** ** [name_changes] *)

(** The columns [make_change] is called on. *)
Inductive name_column : Type := first_name_col | last_name_col.

(** [row[col_name] = value] *)
Definition set_column (col_name : name_column) (value : string)
    (r : Wide.row) : Wide.row :=
  match col_name with
  | first_name_col =>
      Wide.set_names value (Wide.middle_name r) (Wide.last_name r) r
  | last_name_col =>
      Wide.set_names (Wide.first_name r) (Wide.middle_name r) value r
  end.

(** [df.loc[index_num]]: the rows carrying the label, [KeyError] when there
    is none. *)
Definition loc (df : Wide.frame) (index_num : Z) : result Wide.frame :=
  match List.filter (λ lr, bool_decide (lr.1 = index_num)) df with
  | [] => Raise KeyError
  | rows => Ok rows
  end.

Definition make_change (df : Wide.frame) (index_num : Z)
    (col_name : name_column) (value : string) : result Wide.frame :=
  let* row := loc df index_num in
  Ok (prod_map id (set_column col_name value) <$> row).

(** [try: df = df.append(make_change(df, ...)) except KeyError: pass] *)
Definition try_append (df : Wide.frame) (change : result Wide.frame)
  : result Wide.frame :=
  match change with
  | Ok rows => Ok (df ++ rows)
  | Raise KeyError => Ok df
  | Raise e => Raise e
  end.

Definition name_changes (df : Wide.frame) : result Wide.frame :=
  let* df := try_append df (make_change df 1386716 last_name_col "Randall") in
  let* df := try_append df (make_change df 1382851 first_name_col "Sam") in
  Ok df.

(** ** [name_perms] *)

(** [s[0]] *)
Definition first_char (s : string) : result string :=
  match s with
  | EmptyString => Raise IndexError
  | String c _ => Ok (String c EmptyString)
  end.

Definition name_perms (row : Wide.row) : result Wide.row :=
  let row :=
    Wide.set_names (PyStr.re_sub_punct (Wide.first_name row))
                   (PyStr.re_sub_punct (Wide.middle_name row))
                   (PyStr.re_sub_punct (Wide.last_name row)) row in
  let first := PyStr.upper (PyStr.strip (Wide.first_name row)) in
  let* c := first_char first in
  let first_init := PyStr.upper c in
  let middle := PyStr.upper (PyStr.strip (Wide.middle_name row)) in
  let middle_init :=
    match middle with
    | EmptyString => EmptyString
    | String c _ => PyStr.upper (String c EmptyString)
    end in
  let last := PyStr.upper (PyStr.strip (Wide.last_name row)) in
  Ok (Wide.set_perms
        (first +:+ " " +:+ middle +:+ " " +:+ last)
        (first +:+ " " +:+ middle_init +:+ " " +:+ last)
        (first +:+ " " +:+ last)
        (first_init +:+ " " +:+ middle +:+ " " +:+ last)
        (first_init +:+ " " +:+ middle_init +:+ " " +:+ last)
        (first_init +:+ " " +:+ last)
        last
        row).

(** The tail of [munge_fjc], from [apply(encode_senate_vote)] on, for a
    table whose index nothing has set: [set_index('nid')] is commented out
    there, so the rows are labelled [0, 1, ...]. *)
Definition munge_tail (START_YEAR END_YEAR : Z) (rows : list Wide.row)
  : result (list Wide.row) :=
  let* rows := apply_rows encode_senate_vote rows in
  let df := time_limit START_YEAR END_YEAR (Wide.range_index rows) in
  let* df := name_changes df in
  apply_rows name_perms (snd <$> df).

(** ** The long table: one row per permutation *)

Module Long.

(** A row of the names table, as [make_names_df] writes it and
    [make_name_dicts] reads it. *)
Record row : Type := {
  start_year : option Z;
  end_year : option Z;
  court_num : Z;
  circuit_num : Z;
  judge_name : string;
  year : Z;
  name_perm : string
}.

Global Instance row_eq_dec : EqDecision row.
Proof. solve_decision. Defined.

(** [df['name_perm'] = v], seen on one row. *)
Definition set_name_perm (v : string) (r : row) : row :=
  {| start_year := start_year r; end_year := end_year r;
     court_num := court_num r; circuit_num := circuit_num r;
     judge_name := judge_name r; year := year r; name_perm := v |}.

End Long.

(** ** [make_names_df] *)

(** The row of the long table for the wide row [r], the value [y] of its
    column [year] and its permutation [p]. *)
Definition long_row (y : Z) (r : Wide.row) (p : string) : Long.row :=
  {| Long.start_year := Wide.start_year r;
     Long.end_year := Wide.end_year r;
     Long.court_num := Wide.court_num r;
     Long.circuit_num := Wide.circuit_num r;
     Long.judge_name := Wide.judge_name r;
     Long.year := y;
     Long.name_perm := p |}.

(** The column [name_perm<j>] of a wide row. *)
Definition perm_column (j : nat) (r : Wide.row) : string :=
  nth (j - 1) (Wide.perms r) EmptyString.

(** [pd.wide_to_long(df, stubnames = 'name_perm', i = 'nindex', j = 'nperm')]
    on a table whose column [year] is [y] throughout and whose column
    [nindex] numbers the rows from 0: the seven permutation columns are
    melted one after the other, each over all rows, and every long row is
    labelled with the pair [(nindex, nperm)]. *)
Definition wide_to_long (y : Z) (df : list Wide.row)
  : list ((nat * nat) * Long.row) :=
  j ← seq 1 7;
  '(nindex, r) ← zip (seq 0 (length df)) df;
  [((nindex, j), long_row y r (perm_column j r))].

(** [df.drop_duplicates(ignore_index = True)]: the first of several equal
    rows is kept; [seen] holds the rows met so far. *)
Fixpoint drop_duplicates_from (seen : list Long.row) (df : list Long.row)
  : list Long.row :=
  match df with
  | [] => []
  | r :: df' =>
      if decide (r ∈ seen) then drop_duplicates_from seen df'
      else r :: drop_duplicates_from (r :: seen) df'
  end.

Definition drop_duplicates (df : list Long.row) : list Long.row :=
  drop_duplicates_from [] df.

(** The call [df.sort_values(by = ['court_num'])] has no effect: its result
    is dropped. *)
Definition make_names_df (df : list Wide.row) : list Long.row :=
  let df := wide_to_long 0 df in
  let df :=
    List.filter (λ ir, negb (bool_decide (Long.name_perm ir.2 = ""))) df in
  drop_duplicates (snd <$> df).

(** ** Files *)

(** The names file is the only file written and read back here.  A file holds
    the table written to it: the cells of the names table are taken to be
    read back as they were written, which holds for the numbers and for every
    text that is not one of the markers the reader takes for a missing value
    (["NA"], ["NULL"], ["NAN"], ["N/A"] and the like). *)
Abbreviation store := (gmap string (list Long.row)).

Definition to_csv (path : string) (df : list Long.row) (fs : store) : store :=
  <[path := df]> fs.

Definition load_file (path : string) (fs : store) : result (list Long.row) :=
  match fs !! path with
  | Some df => Ok df
  | None => Raise FileNotFoundError
  end.

(** ** [convert_judge_name] and [convert_judge_name_series] *)

Definition convert_judge_name (year court : Z) (name : string)
    (dict_type : Z) : string :=
  if decide (dict_type = 1) then PyStr.str (court * 10000 + year) +:+ name
  else if decide (dict_type = 2) then PyStr.str year +:+ name
  else name.

(** [series.astype(int)] on a column of 64-bit integers. *)
Definition astype_int (series : list Z) : list Z := series.

(** [series.astype(str)] on a column of integers. *)
Definition astype_str (series : list Z) : list string := PyStr.str <$> series.

(** The result is [None] where the Python function falls off its end. *)
Definition convert_judge_name_series (year court : list Z)
    (name : list string) (dict_type : Z) : option (list string) :=
  if decide (dict_type = 1) then
    Some (zip_with String.append
            (astype_str
               (zip_with i64_add
                  ((λ c, i64_mul c 10000) <$> astype_int court)
                  (astype_int year)))
            name)
  else if decide (dict_type = 2) then
    Some (zip_with String.append (astype_str (astype_int year)) name)
  else None.

(** ** [make_name_dicts] *)

(** [df.set_index(key).to_dict()[value]]: the rows are entered in order, a
    key met again takes the new value. *)
Definition to_dict (keys values : list string) : gmap string string :=
  foldl (λ d kv, <[kv.1 := kv.2]> d) ∅ (zip keys values).

(** The result of [convert_judge_name_series] taken as a column.  The calls
    in [make_name_dicts] pass [dict_type] 1 or 2, for which the result is a
    column; the case [None] does not occur there and is an error only to
    keep the function total. *)
Definition column (c : option (list string)) : result (list string) :=
  match c with
  | Some series => Ok series
  | None => Raise ValueError
  end.

Section NameDicts.

(** [instructions.NAMES_PATH] *)
Variable NAMES_PATH : string.

(** The dictionaries built from the table [df]. *)
Definition name_dicts (df : list Long.row)
  : result (list (gmap string string)) :=
  let df :=
    (λ r, Long.set_name_perm (PyStr.upper (Long.name_perm r)) r) <$> df in
  let* concat_name1 :=
    column (convert_judge_name_series
              (Long.year <$> df) (Long.court_num <$> df)
              (Long.name_perm <$> df) 1) in
  let* concat_name2 :=
    column (convert_judge_name_series
              (Long.year <$> df) (Long.circuit_num <$> df)
              (Long.name_perm <$> df) 1) in
  let* concat_name3 :=
    column (convert_judge_name_series
              (Long.year <$> df) (Long.court_num <$> df)
              (Long.name_perm <$> df) 2) in
  let* concat_name4 :=
    column (convert_judge_name_series
              (Long.year <$> df) (Long.circuit_num <$> df)
              (Long.name_perm <$> df) 2) in
  let names := [] in
  let names := names ++ [to_dict concat_name1 (Long.judge_name <$> df)] in
  let names := names ++ [to_dict concat_name2 (Long.judge_name <$> df)] in
  let names := names ++ [to_dict concat_name3 (Long.judge_name <$> df)] in
  let names := names ++ [to_dict concat_name4 (Long.judge_name <$> df)] in
  let names :=
    names ++ [to_dict (Long.name_perm <$> df) (Long.judge_name <$> df)] in
  Ok names.

Definition make_name_dicts (fs : store)
  : result (list (gmap string string)) :=
  let* df := load_file NAMES_PATH fs in
  name_dicts df.

(** The part of [fjc_create.main] that builds and writes the names table. *)
Definition write_names (df : list Wide.row) (fs : store) : store :=
  let names := make_names_df df in
  to_csv NAMES_PATH names fs.

End NameDicts.

(** ** Sample data *)

Definition jan1 (y : Z) : date := {| dt_year := y; dt_month := 1; dt_day := 1 |}.

(** A row of the combined table as it enters the pipeline: the derived
    columns are still empty. *)
Definition sample_row (id : Z) (jname first middle last : string)
    (court circuit : Z) (vote_type vote : string)
    (start term : option Z) : Wide.row :=
  {| Wide.nid := id; Wide.judge_name := jname;
     Wide.first_name := first; Wide.middle_name := middle;
     Wide.last_name := last;
     Wide.court_num := court; Wide.circuit_num := circuit;
     Wide.senate_vote_type := vote_type; Wide.senate_vote := vote;
     Wide.senate_percent := None;
     Wide.start_date := jan1 <$> start;
     Wide.termination_date := jan1 <$> term;
     Wide.start_year := None; Wide.end_year := None;
     Wide.name_perm1 := ""; Wide.name_perm2 := ""; Wide.name_perm3 := "";
     Wide.name_perm4 := ""; Wide.name_perm5 := ""; Wide.name_perm6 := "";
     Wide.name_perm7 := "" |}.

Definition smith_john : Wide.row :=
  sample_row 1 "Smith, John Quincy" "John" "Quincy" "Smith" 5 2
             "Ayes/Nays" "60/40" (Some 1990) (Some 1999).

Definition smith_jane : Wide.row :=
  sample_row 2 "Smith, Jane" "Jane" "" "Smith" 5 2
             "Voice" "nan" (Some 1995) None.

(** ** The service window *)

(** A row of the table is retained when it is in the result with its year
    columns filled in. *)
Definition retained (START_YEAR END_YEAR : Z) (df : Wide.frame)
    (label : Z) (r : Wide.row) : Prop :=
  (label, time_limit_columns END_YEAR r) ∈ time_limit START_YEAR END_YEAR df.

(** ** Names as the permutations use them *)

(** A name component with the punctuation removed, trimmed and upper-cased. *)
Definition normalised (s : string) : string :=
  PyStr.upper (PyStr.strip (PyStr.re_sub_punct s)).

(** The string has at least two characters and the second is not a space. *)
Definition second_not_space (s : string) : Prop :=
  match s with
  | String _ (String b _) => b ≠ " "%char
  | _ => False
  end.

(** A roll-call row with the vote text [vote]. *)
Definition roll_call (vote : string) : Wide.row :=
  sample_row 3 "Roe, Max" "Max" "" "Roe" 5 2 "Ayes/Nays" vote
             (Some 1990) None.

(** ** The corrections *)

(** The rows a correction appends: none when its target is missing. *)
Definition appended (change : result Wide.frame) : Wide.frame :=
  match change with
  | Ok rows => rows
  | Raise _ => []
  end.

Definition king : Wide.row :=
  sample_row 1386716 "King, Carolyn Dineen" "Carolyn" "Dineen" "King" 5 5
             "Voice" "nan" (Some 1979) None.

(** ** Plain decimal numerals *)

Fixpoint all_digits (s : string) : bool :=
  match s with
  | EmptyString => true
  | String c s' => PyStr.isdigit c && all_digits s'
  end.



(** ** Composite keys, in the words of the specification *)

(** A numeric component in plain decimal, then the permutation text, nothing
    in between. *)
Definition composite_key (num : Z) (text : string) : string :=
  PyStr.str num +:+ text.

(** The permutation text of a row as the keys use it. *)
Definition key_text (r : Long.row) : string := PyStr.upper (Long.name_perm r).

Definition court_year_key (r : Long.row) : string :=
  composite_key (Long.court_num r * 10000 + Long.year r) (key_text r).

Definition circuit_year_key (r : Long.row) : string :=
  composite_key (Long.circuit_num r * 10000 + Long.year r) (key_text r).

Definition year_key (r : Long.row) : string :=
  composite_key (Long.year r) (key_text r).

(** The key of a row in each of the five tables, as [make_name_dicts]
    computes it on 64-bit columns; the tables are numbered from 0. *)
Definition table_key (t : nat) (r : Long.row) : string :=
  match t with
  | 0%nat =>
      PyStr.str (i64_add (i64_mul (Long.court_num r) 10000) (Long.year r))
      +:+ key_text r
  | 1%nat =>
      PyStr.str (i64_add (i64_mul (Long.circuit_num r) 10000) (Long.year r))
      +:+ key_text r
  | 2%nat | 3%nat => PyStr.str (Long.year r) +:+ key_text r
  | _ => key_text r
  end.

(** The five tables built from the rows [df] with the keys [table_key]. *)
Definition tables (df : list Long.row) : list (gmap string string) :=
  (λ t, to_dict (table_key t <$> df) (Long.judge_name <$> df)) <$> seq 0 5.

(** Rows of the names table. *)
Definition names_row (court circuit : Z) (jname : string) (y : Z)
    (perm : string) : Long.row :=
  {| Long.start_year := Some 1990; Long.end_year := Some 2005;
     Long.court_num := court; Long.circuit_num := circuit;
     Long.judge_name := jname; Long.year := y; Long.name_perm := perm |}.

Definition sample_names : list Long.row :=
  [names_row 5 2 "Smith, John Quincy" 2001 "J SMITH";
   names_row 5 2 "Smith, John Quincy" 2001 "SMITH";
   names_row 5 2 "Smith, Jane" 2001 "J SMITH";
   names_row 5 2 "Smith, Jane" 2001 "SMITH"].

(** Two rows of the wide table with their permutations filled in. *)
Definition with_perms (r : Wide.row) : Wide.row :=
  match name_perms r with
  | Ok r' => r'
  | Raise _ => r
  end.

Definition sample_wide : list Wide.row :=
  [with_perms smith_john; with_perms smith_jane].

(** ** Texts without punctuation *)

(** No character of the string is matched by the pattern of [name_perms]. *)
Fixpoint no_punct (s : string) : bool :=
  match s with
  | EmptyString => true
  | String c s' => negb (PyStr.is_punct c) && no_punct s'
  end.

(** A row whose first name is nothing but punctuation and blanks. *)
Definition nameless : Wide.row :=
  sample_row 9 "Unknown" " . " "" "Doe" 5 2 "Voice" "nan" (Some 1990) None.

(** ** Texts that a numeral can be told apart from *)

(** The first character of the string is a decimal digit. *)
Definition starts_with_digit (s : string) : bool :=
  match s with
  | EmptyString => false
  | String c _ => PyStr.isdigit c
  end.

(** The columns [year], [court] and [name] of a table of triples. *)
Definition year_column (rows : list (Z * Z * string)) : list Z :=
  (λ x, x.1.1) <$> rows.
Definition court_column (rows : list (Z * Z * string)) : list Z :=
  (λ x, x.1.2) <$> rows.
Definition name_column_of (rows : list (Z * Z * string)) : list string :=
  (λ x, x.2) <$> rows.

(** ** [fill_empty] and the forward fill of [fix_columns] *)

(** A cell of a text column before [fillna('')]: [None] is [NaN]. *)
Abbreviation cell := (option string).

(** [series.replace(to_replace, method = 'ffill')]: the column is walked
    from the top with the value [last] at hand, which starts as the first
    cell; a cell that is to be replaced takes [last], any other cell stays
    and becomes [last].  So a cell to be replaced takes the value of the
    nearest cell above it that is not, and above the first such cell it
    takes the value of the first cell of the column. *)
Fixpoint pad_from {A : Type} (to_replace : A → bool) (last : option A)
    (series : list A) : list A :=
  match series with
  | [] => []
  | x :: series' =>
      if to_replace x
      then from_option id x last :: pad_from to_replace last series'
      else x :: pad_from to_replace (Some x) series'
  end.

Definition replace_ffill {A : Type} (to_replace : A → bool)
    (series : list A) : list A :=
  pad_from to_replace (head series) series.

(** [np.nan] as the value to replace. *)
Definition is_nan (c : cell) : bool :=
  match c with
  | None => true
  | Some _ => false
  end.

(** The list [['None (assignment)', 'None (reassignment)']] as the values to
    replace. *)
Definition is_none_assignment (c : cell) : bool :=
  bool_decide (c = Some "None (assignment)"
               ∨ c = Some "None (reassignment)").

(** [fill_empty], on the two columns it rewrites: [senate_vote_type] and
    [senate_vote]. *)
Definition fill_empty (senate_vote_type senate_vote : list cell)
  : list cell * list cell :=
  (replace_ffill is_nan senate_vote_type, replace_ffill is_nan senate_vote).

(** The two fills of [fix_columns] on one of the vote columns: the one of
    [df.replace([...], method = 'ffill')], then the one of [fill_empty]. *)
Definition fix_vote_column (series : list cell) : list cell :=
  replace_ffill is_nan (replace_ffill is_none_assignment series).

(** What a forward fill of missing values does to a column: the length
    stays, a value that is present stays, a missing cell below a present
    value takes the value of the nearest present cell above it, and the
    missing cells above the first present value stay missing. *)
Definition forward_filled (series filled : list cell) : Prop :=
  length filled = length series
  ∧ (∀ i s, series !! i = Some (Some s) → filled !! i = Some (Some s))
  ∧ (∀ i j s, series !! i = Some (Some s) → (i < j)%nat →
       (∀ k, (i < k <= j)%nat → series !! k = Some None) →
       filled !! j = Some (Some s))
  ∧ (∀ j, (∀ k, (k <= j)%nat → series !! k = Some None) →
       filled !! j = Some None).

(** A vote cell that holds a value: neither [NaN] nor one of the two
    markers. *)
Definition real_value (c : cell) : Prop :=
  is_nan c = false ∧ is_none_assignment c = false.

(** ** [encode_bio_data] *)

(** [s.startswith(sub)] *)
Fixpoint is_prefix (sub s : string) : bool :=
  match sub, s with
  | EmptyString, _ => true
  | String a sub', String b s' => bool_decide (a = b) && is_prefix sub' s'
  | String _ _, EmptyString => false
  end.

(** [sub in s]; the patterns of [str.contains] below are plain words, so the
    match is a substring test. *)
Fixpoint contains_sub (sub s : string) : bool :=
  is_prefix sub s
  || match s with
     | EmptyString => false
     | String _ s' => contains_sub sub s'
     end.

(** [series.str.contains(sub)] on one cell, with the [NaN] it gives for a
    missing cell read as false, as [|] and [np.where] read it. *)
Definition cell_contains (sub : string) (c : cell) : bool :=
  match c with
  | Some s => contains_sub sub s
  | None => false
  end.

(** [series == text] on one cell. *)
Definition cell_eq (c : cell) (text : string) : bool :=
  bool_decide (c = Some text).

Module Bio.

(** The columns [encode_bio_data] reads, before the encoding. *)
Record row : Type := {
  recess : cell;
  party : cell;
  aba_rating : cell;
  gender : cell;
  race : cell;
  president : cell
}.

(** The columns it has written: [recess], [party] and [aba_rating] are
    overwritten, [woman], [minority] and [pres_num] are new. *)
Record coded : Type := {
  recess_code : bool;
  party_code : Z;
  aba_rating_code : Z;
  woman : bool;
  minority : bool;
  pres_num : option Z
}.

End Bio.

Section BioData.

(** [instructions.PRESIDENTS] *)
Variable PRESIDENTS : gmap string Z.

(** [series.map(PRESIDENTS)] on one cell: [NaN] where the dictionary has no
    entry. *)
Definition map_presidents (c : cell) : option Z :=
  match c with
  | Some name => PRESIDENTS !! name
  | None => None
  end.

Definition encode_bio_data (r : Bio.row) : Bio.coded :=
  {| Bio.recess_code :=
       match Bio.recess r with
       | Some s => bool_decide (1 < String.length s)%nat
       | None => false
       end;
     Bio.party_code := if cell_eq (Bio.party r) "Democratic" then -1 else 1;
     Bio.aba_rating_code :=
       if cell_eq (Bio.aba_rating r) "Exceptionally Well Qualified" then 4
       else if cell_eq (Bio.aba_rating r) "Well Qualified" then 3
       else if cell_eq (Bio.aba_rating r) "Qualified" then 2
       else if cell_eq (Bio.aba_rating r) "Not Qualified" then 1
       else 0;
     Bio.woman := cell_eq (Bio.gender r) "Female";
     Bio.minority :=
       cell_contains "American" (Bio.race r)
       || cell_contains "Hispanic" (Bio.race r)
       || cell_contains "Pacific" (Bio.race r);
     Bio.pres_num := map_presidents (Bio.president r) |}.

End BioData.

(** The ABA ratings the encoding knows, with their codes. *)
Definition aba_ratings : list (string * Z) :=
  [("Exceptionally Well Qualified", 4); ("Well Qualified", 3);
   ("Qualified", 2); ("Not Qualified", 1)].

(** ** The rows the window keeps *)

(** The two tests of [time_limit] on the dates of a row. *)
Definition in_window (START_YEAR END_YEAR : Z) (r : Wide.row) : Prop :=
  cell_gt (end_year_of END_YEAR r) (START_YEAR - 2) = true
  ∧ cell_le (start_year_of r) END_YEAR = true.

(** A judge who left the bench long before the window, with a vote text
    that cannot be read. *)
Definition old_judge : Wide.row :=
  sample_row 4 "Old, Tom" "Tom" "" "Old" 5 2 "Ayes/Nays" "N/A"
             (Some 1801) (Some 1810).

(** ** The column names of [fix_columns] *)

Definition lower_char (c : ascii) : ascii :=
  let n := PyStr.code c in
  if ((65 <=? n) && (n <=? 90))%N then ascii_of_N (n + 32) else c.

(** [str.lower] *)
Fixpoint str_lower (s : string) : string :=
  match s with
  | EmptyString => EmptyString
  | String c s' => String (lower_char c) (str_lower s')
  end.

(** [x.replace(' ', '_')] *)
Fixpoint replace_space (s : string) : string :=
  match s with
  | EmptyString => EmptyString
  | String c s' =>
      String (if decide (c = " "%char) then "_"%char else c) (replace_space s')
  end.

(** [df.rename(columns = renames)] on one column name: a name the dictionary
    does not hold stays. *)
Definition rename (renames : gmap string string) (name : string) : string :=
  default name (renames !! name).

Section FixColumns.

(** [instructions.SERVICE_RENAMES], [instructions.CAREER_RENAMES] and
    [instructions.DEMOGRAPHICS_RENAMES] *)
Variables SERVICE_RENAMES CAREER_RENAMES DEMOGRAPHICS_RENAMES
  : gmap string string.

(** The five [rename] calls of [fix_columns], on one column name. *)
Definition fix_column_name (name : string) : string :=
  rename DEMOGRAPHICS_RENAMES
    (rename CAREER_RENAMES
       (rename SERVICE_RENAMES (replace_space (str_lower name)))).

End FixColumns.

(** ** The keys of a dictionary, in the words of the specification *)



(** * Properties *)

Lemma elem_of_List_filter {A : Type} (f : A → bool) (l : list A) (x : A) :
  x ∈ List.filter f l ↔ x ∈ l ∧ f x = true.
Proof. rewrite !list_elem_of_In. apply filter_In. Qed.

Lemma time_limit_spec START_YEAR END_YEAR (df : Wide.frame) (x : Z * Wide.row) :
  x ∈ time_limit START_YEAR END_YEAR df ↔
  ∃ r, (x.1, r) ∈ df ∧ x.2 = time_limit_columns END_YEAR r
       ∧ cell_gt (end_year_of END_YEAR r) (START_YEAR - 2) = true
       ∧ cell_le (start_year_of r) END_YEAR = true.
Proof.
  unfold time_limit. rewrite !elem_of_List_filter, list_elem_of_fmap. split.
  - intros [[[[l r] [-> Hin]] Hgt] Hle]. exists r. simpl in *. tauto.
  - intros (r & Hin & Heq & Hgt & Hle). destruct x as [l r']. simpl in *.
    subst r'. split; [split|]; [|exact Hgt|exact Hle].
    exists (l, r). split; [reflexivity|exact Hin].
Qed.

Lemma time_limit_dropped START_YEAR END_YEAR (df : Wide.frame) label r e :
  end_year_of END_YEAR r = Some e → e <= START_YEAR - 2 →
  ¬ retained START_YEAR END_YEAR df label r.
Proof.
  unfold retained. intros He Hle [r' (_ & Heq & Hgt & _)]%time_limit_spec.
  simpl in Heq. apply (f_equal Wide.end_year) in Heq. simpl in Heq.
  rewrite <- Heq, He in Hgt. simpl in Hgt.
  apply bool_decide_eq_true in Hgt. lia.
Qed.

(** C1, as stated, fails: with the window starting in 1950, a judge whose
    service ended in 1948 = 1950 - 2 is dropped by [time_limit]. *)
Lemma C1_end_year_minus_2_dropped :
  let r := sample_row 7 "Doe, Roe" "Roe" "" "Doe" 5 2 "Voice" "nan"
                      (Some 1940) (Some 1948) in
  end_year_of 2020 r = Some (1950 - 2)
  ∧ ¬ retained 1950 2020 [(0, r)] 0 r.
Proof.
  split; [reflexivity|]. unfold retained. vm_compute. inversion 1.
Qed.

(** C1 (amended): the filter keeps [end_year > START_YEAR - 2].  A record of
    the table whose end year is the window start minus 1, and whose start
    year is at most the window end, is retained; a record whose end year is
    the window start minus 2, or minus 3, is dropped.  In general a record
    of the table is retained exactly when its end year is above the window
    start minus 2 and it has a start year that is at most the window end. *)
Theorem C1_time_limit_boundary START_YEAR END_YEAR (df : Wide.frame) label r :
  (label, r) ∈ df →
  (end_year_of END_YEAR r = Some (START_YEAR - 1) →
   cell_le (start_year_of r) END_YEAR = true →
   retained START_YEAR END_YEAR df label r)
  ∧ (end_year_of END_YEAR r = Some (START_YEAR - 2) →
     ¬ retained START_YEAR END_YEAR df label r)
  ∧ (end_year_of END_YEAR r = Some (START_YEAR - 3) →
     ¬ retained START_YEAR END_YEAR df label r)
  ∧ (retained START_YEAR END_YEAR df label r ↔
     (∃ e, end_year_of END_YEAR r = Some e ∧ e > START_YEAR - 2)
     ∧ (∃ s, start_year_of r = Some s ∧ s <= END_YEAR)).
Proof.
  intros Hin. split; [|split; [|split]].
  - intros He Hs. apply time_limit_spec. exists r.
    split; [exact Hin|]. split; [reflexivity|]. split; [|exact Hs].
    rewrite He. simpl. apply bool_decide_eq_true. lia.
  - intros He. eapply time_limit_dropped; [exact He|lia].
  - intros He. eapply time_limit_dropped; [exact He|lia].
  - unfold retained. rewrite time_limit_spec. split.
    + intros (r' & _ & Heq & Hgt & Hle). simpl in Heq.
      pose proof (f_equal Wide.end_year Heq) as He.
      pose proof (f_equal Wide.start_year Heq) as Hs. simpl in He, Hs.
      rewrite <- He in Hgt. rewrite <- Hs in Hle. split.
      * destruct (end_year_of END_YEAR r) as [e|]; [|discriminate].
        exists e. split; [reflexivity|].
        simpl in Hgt. apply bool_decide_eq_true in Hgt. exact Hgt.
      * destruct (start_year_of r) as [s|]; [|discriminate].
        exists s. split; [reflexivity|].
        simpl in Hle. apply bool_decide_eq_true in Hle. exact Hle.
    + intros [(e & He & Hgt) (s & Hs & Hle)]. exists r.
      split; [exact Hin|]. split; [reflexivity|].
      rewrite He, Hs. simpl. split; apply bool_decide_eq_true; assumption.
Qed.

Lemma C1_time_limit_boundary_witness :
  let judge (term : Z) :=
    sample_row 7 "Doe, Roe" "Roe" "" "Doe" 5 2 "Voice" "nan"
               (Some 1940) (Some term) in
  let df := [(0, judge 1949); (1, judge 1948); (2, judge 1947);
             (3, judge 1990)] in
  retained 1950 2020 df 0 (judge 1949)
  ∧ ¬ retained 1950 2020 df 1 (judge 1948)
  ∧ ¬ retained 1950 2020 df 2 (judge 1947)
  ∧ retained 1950 2020 df 3 (judge 1990).
Proof.
  intros judge df. split; [|split; [|split]].
  - destruct (C1_time_limit_boundary 1950 2020 df 0 (judge 1949)) as (H & _);
      [apply list_elem_of_here|]. apply H; reflexivity.
  - destruct (C1_time_limit_boundary 1950 2020 df 1 (judge 1948))
      as (_ & H & _); [apply list_elem_of_further, list_elem_of_here|].
    apply H. reflexivity.
  - destruct (C1_time_limit_boundary 1950 2020 df 2 (judge 1947))
      as (_ & _ & H & _);
      [do 2 apply list_elem_of_further; apply list_elem_of_here|].
    apply H. reflexivity.
  - destruct (C1_time_limit_boundary 1950 2020 df 3 (judge 1990))
      as (_ & _ & _ & H);
      [do 3 apply list_elem_of_further; apply list_elem_of_here|].
    apply H. split.
    + exists 1990. split; [reflexivity|lia].
    + exists 1940. split; [reflexivity|lia].
Defined.

(** ** Strings *)

Example upper_ex : PyStr.upper "John q. O'Neil" = "JOHN Q. O'NEIL".
Proof. reflexivity. Qed.

Example strip_ex : PyStr.strip "  a b  " = "a b".
Proof. reflexivity. Qed.

Example re_sub_punct_ex : PyStr.re_sub_punct "O'Neil, [Jr.]" = "ONeil Jr".
Proof. reflexivity. Qed.

Example split_ex :
  PyStr.split "/" "60/40" = ["60"; "40"]
  ∧ PyStr.split "/" "3//1" = ["3"; ""; "1"]
  ∧ PyStr.split "/" "" = [""].
Proof. repeat split; reflexivity. Qed.

Example int_ex :
  PyStr.int " -1_000 " = Some (-1000) ∧ PyStr.int "007" = Some 7
  ∧ PyStr.int "+5" = Some 5 ∧ PyStr.int "1__0" = None
  ∧ PyStr.int "4_" = None ∧ PyStr.int "" = None ∧ PyStr.int "a" = None.
Proof. repeat split; reflexivity. Qed.

Example str_ex :
  PyStr.str 50001 = "50001" ∧ PyStr.str (-7) = "-7" ∧ PyStr.str 0 = "0".
Proof. repeat split; reflexivity. Qed.

Lemma app_cons (a : ascii) (s t : string) :
  String a s +:+ t = String a (s +:+ t).
Proof. reflexivity. Qed.

Lemma app_nil (t : string) : "" +:+ t = t.
Proof. reflexivity. Qed.

Lemma length_append (s t : string) :
  String.length (s +:+ t) = (String.length s + String.length t)%nat.
Proof. induction s as [|a s IH]; [reflexivity|]. rewrite app_cons. simpl. lia. Qed.

Lemma length_upper (s : string) :
  String.length (PyStr.upper s) = String.length s.
Proof. induction s as [|a s IH]; simpl; congruence. Qed.

(** ** The permutations *)

Lemma name_perms_ok (r : Wide.row) (a : ascii) (rest : string) :
  normalised (Wide.first_name r) = String a rest →
  let first := normalised (Wide.first_name r) in
  let middle := normalised (Wide.middle_name r) in
  let last := normalised (Wide.last_name r) in
  let first_init := String (PyStr.upper_char a) "" in
  let middle_init :=
    match middle with
    | "" => ""
    | String c _ => String (PyStr.upper_char c) ""
    end in
  name_perms r =
  Ok (Wide.set_perms
        (first +:+ " " +:+ middle +:+ " " +:+ last)
        (first +:+ " " +:+ middle_init +:+ " " +:+ last)
        (first +:+ " " +:+ last)
        (first_init +:+ " " +:+ middle +:+ " " +:+ last)
        (first_init +:+ " " +:+ middle_init +:+ " " +:+ last)
        (first_init +:+ " " +:+ last)
        last
        (Wide.set_names (PyStr.re_sub_punct (Wide.first_name r))
                        (PyStr.re_sub_punct (Wide.middle_name r))
                        (PyStr.re_sub_punct (Wide.last_name r)) r)).
Proof.
  unfold normalised, name_perms. simpl. intros ->. simpl.
  destruct (PyStr.upper _); reflexivity.
Qed.

Lemma name_perms_smith_jane :
  Wide.perms <$> (match name_perms smith_jane with
                  | Ok r => Some r
                  | Raise _ => None
                  end)
  = Some ["JANE  SMITH"; "JANE  SMITH"; "JANE SMITH";
          "J  SMITH"; "J  SMITH"; "J SMITH"; "SMITH"].
Proof. reflexivity. Qed.

Lemma name_perms_smith_john :
  Wide.perms <$> (match name_perms smith_john with
                  | Ok r => Some r
                  | Raise _ => None
                  end)
  = Some ["JOHN QUINCY SMITH"; "JOHN Q SMITH"; "JOHN SMITH";
          "J QUINCY SMITH"; "J Q SMITH"; "J SMITH"; "SMITH"].
Proof. reflexivity. Qed.

(** Two strings differ when their lengths differ, or when their second
    characters differ. *)
Ltac strings_differ :=
  let H := fresh in
  intros H;
  first
    [ apply (f_equal String.length) in H;
      rewrite ?length_append, ?length_upper in H; simpl in H; lia
    | apply (f_equal (String.get 1)) in H;
      rewrite ?app_cons in H; simpl in H; congruence ].

(** C2, as stated, fails: for Jane Smith, who has no middle name, the first
    two permutations are the same string, so the seven are not pairwise
    distinct. *)
Lemma C2_perms_not_distinct :
  normalised (Wide.first_name smith_jane) ≠ ""
  ∧ normalised (Wide.last_name smith_jane) ≠ ""
  ∧ ∃ r, name_perms smith_jane = Ok r
         ∧ Wide.name_perm1 r = Wide.name_perm2 r
         ∧ ¬ NoDup (Wide.perms r).
Proof.
  split; [discriminate|]. split; [discriminate|].
  eexists. split; [reflexivity|]. split; [reflexivity|].
  intros Hnd. apply NoDup_cons_1_1 in Hnd. apply Hnd. simpl. left.
Qed.

(** C2 (amended): for every record whose first name is non-empty once the
    punctuation is removed and the white space trimmed, [name_perms] produces
    the seven strings [name_perm1] to [name_perm7], and [name_perm7] is the
    upper-cased, trimmed, punctuation-stripped last name alone.  The seven
    strings are pairwise distinct when, in addition, the normalised first
    name has at least two characters with a second one that is no space, and
    the normalised middle name has at least two characters. *)
Theorem C2_name_perms (r : Wide.row) :
  normalised (Wide.first_name r) ≠ "" →
  ∃ r', name_perms r = Ok r'
        ∧ length (Wide.perms r') = 7%nat
        ∧ Wide.name_perm7 r' = normalised (Wide.last_name r)
        ∧ (second_not_space (normalised (Wide.first_name r)) →
           (2 <= String.length (normalised (Wide.middle_name r)))%nat →
           NoDup (Wide.perms r')).
Proof.
  intros Hne.
  destruct (normalised (Wide.first_name r)) as [|a rest] eqn:Hfirst;
    [congruence|].
  eexists. split; [exact (name_perms_ok r a rest Hfirst)|].
  split; [reflexivity|]. split; [reflexivity|].
  rewrite Hfirst. unfold Wide.perms. simpl.
  destruct rest as [|b rest]; [intros []|]. intros Hb.
  destruct (normalised (Wide.middle_name r)) as [|m [|m' mid]];
    simpl; [lia|lia|]. intros _.
  generalize (normalised (Wide.last_name r)). intros last.
  repeat (apply NoDup_cons; split;
          [rewrite ?not_elem_of_cons; repeat split;
           first [apply not_elem_of_nil | strings_differ]|]).
  apply NoDup_nil_2.
Qed.

Lemma C2_name_perms_witness :
  ∃ r', name_perms smith_john = Ok r'
        ∧ length (Wide.perms r') = 7%nat
        ∧ Wide.name_perm7 r' = "SMITH"
        ∧ NoDup (Wide.perms r').
Proof.
  destruct (C2_name_perms smith_john) as (r' & Hr & Hlen & H7 & Hnd);
    [discriminate|].
  exists r'. split; [exact Hr|]. split; [exact Hlen|]. split; [exact H7|].
  apply Hnd; [discriminate|simpl; lia].
Defined.

(** C3, as stated, fails: Jane Smith has the empty middle name, and her
    [name_perm1] has two spaces between the first and the last name. *)
Lemma C3_double_space :
  Wide.middle_name smith_jane = ""
  ∧ ∃ r, name_perms smith_jane = Ok r
         ∧ Wide.name_perm1 r = "JANE  SMITH"
         ∧ Wide.name_perm1 r ≠
             normalised (Wide.first_name smith_jane) +:+ " "
             +:+ normalised (Wide.last_name smith_jane).
Proof.
  split; [reflexivity|]. eexists. split; [reflexivity|].
  split; [reflexivity|]. discriminate.
Qed.

(** C3 (amended): for every record whose middle name is the empty string,
    [name_perm1] is the first name, two spaces and the last name; the
    permutation with exactly one space between the two is [name_perm3]. *)
Theorem C3_empty_middle (r : Wide.row) :
  Wide.middle_name r = "" →
  normalised (Wide.first_name r) ≠ "" →
  ∃ r', name_perms r = Ok r'
        ∧ Wide.name_perm1 r' =
            normalised (Wide.first_name r) +:+ "  "
            +:+ normalised (Wide.last_name r)
        ∧ Wide.name_perm3 r' =
            normalised (Wide.first_name r) +:+ " "
            +:+ normalised (Wide.last_name r).
Proof.
  intros Hmid Hne.
  destruct (normalised (Wide.first_name r)) as [|a rest] eqn:Hfirst;
    [congruence|].
  eexists. split; [exact (name_perms_ok r a rest Hfirst)|].
  simpl. rewrite Hfirst. unfold normalised at 1. rewrite Hmid. simpl.
  split; reflexivity.
Qed.

Lemma C3_empty_middle_witness :
  ∃ r', name_perms smith_jane = Ok r'
        ∧ Wide.name_perm1 r' = "JANE  SMITH"
        ∧ Wide.name_perm3 r' = "JANE SMITH".
Proof.
  destruct (C3_empty_middle smith_jane) as (r' & Hr & H1 & H3);
    [reflexivity|discriminate|].
  exists r'. split; [exact Hr|]. split; [exact H1|exact H3].
Defined.

(** ** The senate vote *)

Section Split.

Variable c : ascii.

Lemma split_no_sep (s : string) :
  PyStr.contains_char c s = false → PyStr.split c s = [s].
Proof.
  induction s as [|d s IH]; simpl; [reflexivity|].
  destruct (decide (d = c)); [discriminate|].
  intros H. rewrite (IH H). reflexivity.
Qed.

Lemma split_app (a b : string) :
  PyStr.contains_char c a = false →
  PyStr.split c (a +:+ String c b) = a :: PyStr.split c b.
Proof.
  induction a as [|d a IH]; rewrite ?app_cons, ?app_nil; simpl.
  - intros _. destruct (decide (c = c)); [reflexivity|congruence].
  - destruct (decide (d = c)); [discriminate|].
    intros H. rewrite (IH H). reflexivity.
Qed.

Lemma contains_char_app (a b : string) :
  PyStr.contains_char c (a +:+ String c b) = true.
Proof.
  induction a as [|d a IH]; rewrite ?app_cons, ?app_nil; simpl.
  - destruct (decide (c = c)); [reflexivity|congruence].
  - destruct (decide (d = c)); [reflexivity|exact IH].
Qed.

Lemma contains_double_cons (d e : ascii) (s : string) :
  PyStr.contains_double c (String d (String e s)) =
  if decide (d = c ∧ e = c) then true
  else PyStr.contains_double c (String e s).
Proof. reflexivity. Qed.

Lemma contains_double_no_sep (s : string) :
  PyStr.contains_char c s = false → PyStr.contains_double c s = false.
Proof.
  induction s as [|d s IH]; [reflexivity|]. simpl PyStr.contains_char.
  destruct (decide (d = c)); [discriminate|]. intros H.
  destruct s as [|e s]; [reflexivity|]. rewrite contains_double_cons.
  destruct (decide (d = c ∧ e = c)) as [[]|]; [congruence|]. exact (IH H).
Qed.

Lemma contains_double_app (a b : string) :
  PyStr.contains_char c a = false → PyStr.contains_char c b = false →
  PyStr.contains_double c (a +:+ String c b) = false.
Proof.
  intros Ha Hb. induction a as [|d a IH]; rewrite ?app_cons, ?app_nil.
  - destruct b as [|e b]; [reflexivity|]. rewrite contains_double_cons.
    destruct (decide (c = c ∧ e = c)) as [[_ ->]|].
    + simpl in Hb. destruct (decide (c = c)); [discriminate|congruence].
    + apply contains_double_no_sep, Hb.
  - simpl in Ha. destruct (decide (d = c)); [discriminate|].
    specialize (IH Ha).
    destruct a as [|e a]; rewrite ?app_cons, ?app_nil in *;
      rewrite contains_double_cons;
      (destruct (decide (d = c ∧ _ = c)) as [[]|]; [congruence|exact IH]).
Qed.

End Split.

Lemma encode_senate_vote_voice (row : Wide.row) :
  Wide.senate_vote_type row = "Voice" →
  encode_senate_vote row = Ok (Wide.set_senate_percent 1 row).
Proof.
  intros H. unfold encode_senate_vote.
  destruct (decide (Wide.senate_vote_type row = "Voice")); [reflexivity|].
  contradiction.
Qed.

Lemma float_threshold : 2 <= 2 ^ 1024 - 2 ^ 970.
Proof. vm_compute. discriminate. Qed.

(** A quotient of absolute value at most 1 is never too large. *)
Lemma float_overflow_small (a b : Z) :
  Z.abs a <= Z.abs b → b ≠ 0 → float_overflow a b = false.
Proof.
  intros Hab Hb. unfold float_overflow. apply bool_decide_eq_false.
  pose proof float_threshold as Ht. revert Ht.
  generalize (2 ^ 1024 - 2 ^ 970). intros t Ht. nia.
Qed.

Lemma encode_senate_vote_tally (row : Wide.row) (yeas neas : string) (y n : Z) :
  Wide.senate_vote_type row ≠ "Voice" →
  Wide.senate_vote row = yeas +:+ "/" +:+ neas →
  PyStr.contains_char "/" yeas = false →
  PyStr.contains_char "/" neas = false →
  PyStr.int yeas = Some y → PyStr.int neas = Some n → y + n ≠ 0 →
  float_overflow y (y + n) = false →
  encode_senate_vote row =
  Ok (Wide.set_senate_percent (Qred (inject_Z y / inject_Z (y + n))) row).
Proof.
  intros Hty Hvote Hy Hn Hiy Hin Hsum Hfl. unfold encode_senate_vote.
  destruct (decide (Wide.senate_vote_type row = "Voice")); [contradiction|].
  rewrite Hvote. change ("/" +:+ neas) with (String "/" neas).
  rewrite contains_char_app, (contains_double_app _ _ _ Hy Hn). simpl.
  rewrite (split_app _ _ _ Hy), (split_no_sep _ _ Hn).
  unfold py_int. rewrite Hiy, Hin. simpl. unfold true_div.
  destruct (decide (y + n = 0)); [contradiction|]. rewrite Hfl. reflexivity.
Qed.

Lemma encode_senate_vote_other (row : Wide.row) :
  Wide.senate_vote_type row ≠ "Voice" →
  PyStr.contains_char "/" (Wide.senate_vote row) = false
  ∨ PyStr.contains_double "/" (Wide.senate_vote row) = true →
  encode_senate_vote row = Ok (Wide.set_senate_percent 0 row).
Proof.
  intros Hty H. unfold encode_senate_vote.
  destruct (decide (Wide.senate_vote_type row = "Voice")); [contradiction|].
  destruct H as [-> | ->]; [reflexivity|]. rewrite andb_false_r. reflexivity.
Qed.

(** C4 holds of what the code sets out to do and fails on the code as it is.
    The guard of [encode_senate_vote] sends a vote text without a slash, or
    with a double slash, to the fallback 0, but the texts ["1/2/3"] and
    ["N/A"] pass the guard: the first cannot be unpacked into two parts, the
    second has parts that are no integers, and the function raises
    [ValueError] on both instead of storing 0. *)
Theorem C4_non_conforming_raises :
  Wide.senate_vote_type (roll_call "1/2/3") ≠ "Voice"
  ∧ encode_senate_vote (roll_call "1/2/3") = Raise ValueError
  ∧ encode_senate_vote (roll_call "1/2/3")
    ≠ Ok (Wide.set_senate_percent 0 (roll_call "1/2/3"))
  ∧ encode_senate_vote (roll_call "N/A") = Raise ValueError
  ∧ encode_senate_vote (roll_call "3//1")
    = Ok (Wide.set_senate_percent 0 (roll_call "3//1")).
Proof.
  split; [discriminate|]. split; [reflexivity|]. split; [discriminate|].
  split; reflexivity.
Qed.

(** Where [encode_senate_vote] does what is asked of it: it stores 1 when
    the vote type is ["Voice"]; otherwise it stores yeas/(yeas+nays) when the
    vote text is ["<yeas>/<nays>"] with exactly one slash and two integer
    tallies that are not negative and not both zero (["60/40"] gives
    3/5 = 0.6); and it stores 0 when the vote text has no slash or has a
    double slash (["3//1"] gives 0). *)
Lemma encode_senate_vote_conforming (row : Wide.row) :
  (Wide.senate_vote_type row = "Voice" →
   encode_senate_vote row = Ok (Wide.set_senate_percent 1 row))
  ∧ (Wide.senate_vote_type row ≠ "Voice" →
     ∀ (yeas neas : string) (y n : Z),
       Wide.senate_vote row = yeas +:+ "/" +:+ neas →
       PyStr.contains_char "/" yeas = false →
       PyStr.contains_char "/" neas = false →
       PyStr.int yeas = Some y → PyStr.int neas = Some n →
       0 <= y → 0 <= n → 0 < y + n →
       encode_senate_vote row =
       Ok (Wide.set_senate_percent (Qred (inject_Z y / inject_Z (y + n))) row))
  ∧ (Wide.senate_vote_type row ≠ "Voice" →
     Wide.senate_vote row = "60/40" →
     encode_senate_vote row = Ok (Wide.set_senate_percent (3 # 5) row))
  ∧ (Wide.senate_vote_type row ≠ "Voice" →
     PyStr.contains_char "/" (Wide.senate_vote row) = false
     ∨ PyStr.contains_double "/" (Wide.senate_vote row) = true →
     encode_senate_vote row = Ok (Wide.set_senate_percent 0 row))
  ∧ (Wide.senate_vote_type row ≠ "Voice" →
     Wide.senate_vote row = "3//1" →
     encode_senate_vote row = Ok (Wide.set_senate_percent 0 row)).
Proof.
  split; [apply encode_senate_vote_voice|].
  split.
  { intros Hty yeas neas y n Hvote Hy Hn Hiy Hin Hy0 Hn0 Hpos.
    apply (encode_senate_vote_tally row yeas neas y n); auto; [lia|].
    apply float_overflow_small; lia. }
  split.
  { intros Hty Hvote.
    apply (encode_senate_vote_tally row "60" "40" 60 40 Hty Hvote);
      [reflexivity| reflexivity| reflexivity| reflexivity| discriminate|].
    apply float_overflow_small; simpl; lia. }
  split; [apply encode_senate_vote_other|].
  intros Hty Hvote. apply encode_senate_vote_other; [exact Hty|].
  right. rewrite Hvote. reflexivity.
Qed.

Example encode_senate_vote_examples :
  encode_senate_vote smith_jane = Ok (Wide.set_senate_percent 1 smith_jane)
  ∧ encode_senate_vote (roll_call "52/48") =
    Ok (Wide.set_senate_percent (13 # 25) (roll_call "52/48"))
  ∧ encode_senate_vote (roll_call "60/40") =
    Ok (Wide.set_senate_percent (3 # 5) (roll_call "60/40"))
  ∧ encode_senate_vote (roll_call (String "031" "60/40")) = Raise ValueError.
Proof.
  split.
  { apply (encode_senate_vote_conforming smith_jane). reflexivity. }
  split.
  { destruct (encode_senate_vote_conforming (roll_call "52/48")) as (_ & H & _).
    apply (H ltac:(discriminate) "52" "48" 52 48); try reflexivity; lia. }
  split.
  { destruct (encode_senate_vote_conforming (roll_call "60/40"))
      as (_ & _ & H & _).
    apply H; [discriminate|reflexivity]. }
  vm_compute. reflexivity.
Qed.

(** ** The corrections *)

Lemma filter_label_other (rows : Wide.frame) (i j : Z) :
  i ≠ j → Forall (λ lr, lr.1 = i) rows →
  List.filter (λ lr : Z * Wide.row, bool_decide (lr.1 = j)) rows = [].
Proof.
  intros Hij. induction 1 as [|lr rows Hlr _ IH]; [reflexivity|]. simpl.
  rewrite bool_decide_eq_false_2 by congruence. exact IH.
Qed.

Lemma loc_labels (df rows : Wide.frame) (i : Z) :
  loc df i = Ok rows → Forall (λ lr, lr.1 = i) rows.
Proof.
  unfold loc. intros H.
  assert (rows = List.filter (λ lr : Z * Wide.row, bool_decide (lr.1 = i)) df)
    as -> by (destruct (List.filter _ df); congruence).
  apply Forall_forall. intros lr [_ Hlr]%elem_of_List_filter.
  apply bool_decide_eq_true in Hlr. exact Hlr.
Qed.

Lemma make_change_labels (df rows : Wide.frame) (i : Z) col value :
  make_change df i col value = Ok rows → Forall (λ lr, lr.1 = i) rows.
Proof.
  unfold make_change. destruct (loc df i) as [found|e] eqn:Hloc; [|discriminate].
  simpl. intros [= <-]. apply loc_labels in Hloc.
  apply Forall_fmap. eapply Forall_impl; [exact Hloc|]. intros [l r]. auto.
Qed.

Lemma loc_app_other (df extra : Wide.frame) (i j : Z) :
  i ≠ j → Forall (λ lr, lr.1 = i) extra → loc (df ++ extra) j = loc df j.
Proof.
  intros Hij Hextra. unfold loc.
  rewrite List.filter_app, (filter_label_other extra i j Hij Hextra), app_nil_r.
  reflexivity.
Qed.

Lemma loc_total (df : Wide.frame) (i : Z) :
  loc df i = Raise KeyError ∨ ∃ rows, loc df i = Ok rows.
Proof. unfold loc. destruct (List.filter _ df); eauto. Qed.

Lemma try_append_make_change (df : Wide.frame) (i : Z) col value :
  try_append df (make_change df i col value)
  = Ok (df ++ appended (make_change df i col value)).
Proof.
  unfold make_change. destruct (loc_total df i) as [-> | [rows ->]]; simpl.
  - rewrite app_nil_r. reflexivity.
  - reflexivity.
Qed.

Lemma name_changes_eq (df : Wide.frame) :
  name_changes df =
  Ok (df ++ appended (make_change df 1386716 last_name_col "Randall")
         ++ appended (make_change df 1382851 first_name_col "Sam")).
Proof.
  unfold name_changes. rewrite try_append_make_change. simpl.
  set (extra := appended (make_change df 1386716 last_name_col "Randall")).
  assert (Forall (λ lr, lr.1 = 1386716) extra) as Hextra.
  { unfold extra.
    destruct (make_change df 1386716 last_name_col "Randall") eqn:H; simpl.
    - eapply make_change_labels, H.
    - constructor. }
  assert (make_change (df ++ extra) 1382851 first_name_col "Sam"
          = make_change df 1382851 first_name_col "Sam") as Hsame.
  { unfold make_change. rewrite (loc_app_other df extra 1386716); auto. }
  assert (try_append (df ++ extra)
            (make_change (df ++ extra) 1382851 first_name_col "Sam")
          = Ok ((df ++ extra)
                  ++ appended (make_change df 1382851 first_name_col "Sam")))
    as ->.
  { rewrite try_append_make_change, Hsame. reflexivity. }
  simpl. rewrite <- app_assoc. reflexivity.
Qed.

(** C7, as stated, fails: the record with identity 1386716 keeps its last
    name.  In a table whose index nothing has set, the lookup finds no row
    labelled 1386716 and the table comes back as it was; where a row has
    that label, it stays as it is and a corrected copy is added after it;
    and in the pipeline the permutations of that judge are built from the
    old name. *)
Lemma C7_record_not_patched :
  Wide.nid king = 1386716 ∧ Wide.last_name king ≠ "Randall"
  ∧ name_changes (Wide.range_index [king]) = Ok [(0, king)]
  ∧ name_changes [(1386716, king)]
    = Ok [(1386716, king);
          (1386716, set_column last_name_col "Randall" king)]
  ∧ ∃ r, munge_tail 1950 2020 [king] = Ok [r]
         ∧ Wide.nid r = 1386716 ∧ Wide.name_perm7 r = "KING".
Proof.
  split; [reflexivity|]. split; [discriminate|]. split; [reflexivity|].
  split; [reflexivity|]. eexists. split; [reflexivity|].
  split; reflexivity.
Qed.

(** C7 (amended): [name_changes] attempts exactly two hard-coded corrections,
    in this order: the last name ["Randall"] for the rows that
    [df.loc[1386716]] finds and the first name ["Sam"] for the rows that
    [df.loc[1382851]] finds.  A correction whose target is found adds a
    corrected copy of it at the end of the table and leaves the rows already
    there as they are; a correction whose target is missing is skipped; no
    error is raised, and when both targets are missing the table passes
    through unchanged. *)
Theorem C7_name_changes (df : Wide.frame) :
  name_changes df =
  Ok (df ++ appended (make_change df 1386716 last_name_col "Randall")
         ++ appended (make_change df 1382851 first_name_col "Sam"))
  ∧ (∀ rows, loc df 1386716 = Ok rows →
       appended (make_change df 1386716 last_name_col "Randall")
       = prod_map id (set_column last_name_col "Randall") <$> rows)
  ∧ (∀ rows, loc df 1382851 = Ok rows →
       appended (make_change df 1382851 first_name_col "Sam")
       = prod_map id (set_column first_name_col "Sam") <$> rows)
  ∧ (loc df 1386716 = Raise KeyError →
     appended (make_change df 1386716 last_name_col "Randall") = [])
  ∧ (loc df 1382851 = Raise KeyError →
     appended (make_change df 1382851 first_name_col "Sam") = [])
  ∧ (loc df 1386716 = Raise KeyError → loc df 1382851 = Raise KeyError →
     name_changes df = Ok df).
Proof.
  split; [apply name_changes_eq|].
  unfold make_change.
  split; [intros rows ->; reflexivity|].
  split; [intros rows ->; reflexivity|].
  split; [intros ->; reflexivity|].
  split; [intros ->; reflexivity|].
  intros H1 H2. rewrite name_changes_eq. unfold make_change.
  rewrite H1, H2. simpl. rewrite app_nil_r. reflexivity.
Qed.

Lemma C7_name_changes_witness :
  name_changes [(0, smith_john); (1, king)] = Ok [(0, smith_john); (1, king)]
  ∧ appended (make_change [(1386716, king)] 1386716 last_name_col "Randall")
    = [(1386716, set_column last_name_col "Randall" king)].
Proof.
  split.
  - apply (C7_name_changes [(0, smith_john); (1, king)]); reflexivity.
  - destruct (C7_name_changes [(1386716, king)]) as (_ & H & _).
    apply (H [(1386716, king)]). reflexivity.
Defined.

(** ** [str] of an integer is its plain decimal numeral *)

Lemma app_assoc_s (s t u : string) : (s +:+ t) +:+ u = s +:+ (t +:+ u).
Proof.
  induction s as [|a s IH]; [reflexivity|]. rewrite !app_cons, IH. reflexivity.
Qed.

Lemma app_nil_r_s (s : string) : s +:+ "" = s.
Proof. induction s as [|a s IH]; [reflexivity|]. rewrite app_cons, IH. reflexivity. Qed.

Lemma all_digits_app (s t : string) :
  all_digits (s +:+ t) = all_digits s && all_digits t.
Proof.
  induction s as [|a s IH]; [reflexivity|]. rewrite app_cons. simpl.
  rewrite IH, andb_assoc. reflexivity.
Qed.

Lemma pretty_N_char_digit (d : N) :
  (d < 10)%N →
  PyStr.isdigit (pretty_N_char d) = true
  ∧ PyStr.digit_val (pretty_N_char d) = Z.of_N d
  ∧ (pretty_N_char d = "0"%char → d = 0%N).
Proof.
  intros Hd.
  assert (d = 0 ∨ d = 1 ∨ d = 2 ∨ d = 3 ∨ d = 4 ∨ d = 5 ∨ d = 6 ∨ d = 7
          ∨ d = 8 ∨ d = 9)%N as H by lia.
  repeat (destruct H as [-> | H]); try subst d;
    (split; [reflexivity|split; [reflexivity|]]);
    first [reflexivity | discriminate].
Qed.

Lemma int_digits_digit (c : ascii) (t : string) (acc : Z) (seen : bool) :
  PyStr.isdigit c = true →
  PyStr.int_digits (String c t) acc seen
  = PyStr.int_digits t (acc * 10 + PyStr.digit_val c) true.
Proof. intros H. simpl. rewrite H. reflexivity. Qed.

(** The digits [pretty_N_go] puts in front of its accumulator. *)
Lemma pretty_N_go_digits (x : N) :
  ∃ ds : string,
    (∀ s, pretty_N_go x s = ds +:+ s)
    ∧ all_digits ds = true
    ∧ (x = 0%N → ds = "")
    ∧ ((0 < x)%N → ∃ c ds', ds = String c ds' ∧ c ≠ "0"%char)
    ∧ (∀ t acc seen, (0 < x)%N →
         PyStr.int_digits (ds +:+ t) acc seen
         = PyStr.int_digits t
             (acc * 10 ^ Z.of_nat (String.length ds) + Z.of_N x) true)
    ∧ ((0 < x)%N → 10 ^ Z.of_nat (String.length ds) <= 10 * Z.of_N x).
Proof.
  induction (N.lt_wf_0 x) as [x _ IH].
  destruct (decide (x = 0%N)) as [-> | Hx].
  { exists "". split; [reflexivity|]. split; [reflexivity|].
    split; [reflexivity|]. repeat split; intros; lia. }
  assert (0 < x)%N as Hpos by lia.
  destruct (IH (x `div` 10)%N)
    as (ds & Hgo & Hall & Hzero & Hhead & Hint & Hlen).
  { apply N.div_lt; lia. }
  assert (∀ s, pretty_N_go x s
               = ds +:+ String (pretty_N_char (x `mod` 10)) s) as Hgo'.
  { intros s. rewrite pretty_N_go_step, Hgo by exact Hpos. reflexivity. }
  clear Hgo IH. rename Hgo' into Hgo.
  assert (x `mod` 10 < 10)%N as Hmod by (apply N.mod_lt; lia).
  destruct (pretty_N_char_digit _ Hmod) as (Hdig & Hval & Hch).
  pose proof (N.div_mod x 10 ltac:(lia)) as Hdm.
  revert Hgo Hall Hzero Hhead Hint Hlen Hmod Hdig Hval Hch Hdm.
  generalize (x `div` 10)%N (x `mod` 10)%N. intros q m.
  intros Hgo Hall Hzero Hhead Hint Hlen Hmod Hdig Hval Hch Hdm.
  exists (ds +:+ String (pretty_N_char m) "").
  split; [|split; [|split; [|split; [|split]]]].
  - intros s. rewrite app_assoc_s. apply Hgo.
  - rewrite all_digits_app, Hall. simpl. rewrite Hdig. reflexivity.
  - intros ->. lia.
  - intros _. destruct (decide (q = 0)%N) as [Hq | Hq].
    + rewrite (Hzero Hq), app_nil. eexists _, _. split; [reflexivity|].
      intros Hc. apply Hch in Hc. lia.
    + destruct Hhead as (c & ds' & -> & Hc); [lia|].
      rewrite app_cons. eauto.
  - intros t acc seen _. rewrite app_assoc_s, app_cons, app_nil.
    rewrite length_append. simpl String.length.
    replace (Z.of_nat (String.length ds + 1)) with (Z.of_nat (String.length ds) + 1)
      by lia.
    rewrite Z.pow_add_r, Z.pow_1_r by lia.
    destruct (decide (q = 0)%N) as [Hq | Hq].
    + rewrite (Hzero Hq), app_nil. simpl String.length.
      rewrite int_digits_digit, Hval by exact Hdig. f_equal. lia.
    + rewrite Hint, int_digits_digit, Hval by first [exact Hdig | lia].
      f_equal. lia.
  - intros _. rewrite length_append. simpl String.length.
    replace (Z.of_nat (String.length ds + 1)) with (Z.of_nat (String.length ds) + 1)
      by lia.
    rewrite Z.pow_add_r, Z.pow_1_r by lia.
    destruct (decide (q = 0)%N) as [Hq | Hq].
    + rewrite (Hzero Hq). simpl. lia.
    + specialize (Hlen ltac:(lia)). lia.
Qed.

Lemma isdigit_not_space (c : ascii) :
  PyStr.isdigit c = true → PyStr.int_isspace c = false.
Proof.
  unfold PyStr.isdigit, PyStr.int_isspace. generalize (PyStr.code c). intros n.
  intros [H1%N.leb_le H2%N.leb_le]%andb_true_iff.
  apply orb_false_iff. split; [apply andb_false_iff; right; apply N.leb_gt; lia|].
  apply N.eqb_neq. lia.
Qed.

Lemma isdigit_not_sign (c : ascii) :
  PyStr.isdigit c = true → c ≠ "-"%char ∧ c ≠ "+"%char.
Proof. intros H. split; intros ->; discriminate. Qed.

Lemma int_rstrip_cons (c : ascii) (s : string) :
  PyStr.int_isspace c = false → PyStr.int_rstrip s = s →
  PyStr.int_rstrip (String c s) = String c s.
Proof. intros Hc Hs. simpl. rewrite Hs, Hc. destruct s; reflexivity. Qed.

Lemma int_rstrip_digits (s : string) :
  all_digits s = true → PyStr.int_rstrip s = s.
Proof.
  induction s as [|c s IH]; [reflexivity|]. simpl all_digits.
  intros [Hc Hs]%andb_true_iff.
  apply int_rstrip_cons; [apply isdigit_not_space, Hc|apply IH, Hs].
Qed.

Lemma int_strip_digits (s : string) :
  all_digits s = true → PyStr.int_strip s = s.
Proof.
  intros H. unfold PyStr.int_strip. destruct s as [|c s]; [reflexivity|].
  simpl in H. apply andb_true_iff in H as [Hc Hs]. simpl PyStr.int_lstrip.
  rewrite (isdigit_not_space c Hc).
  apply int_rstrip_cons; [apply isdigit_not_space, Hc|apply int_rstrip_digits, Hs].
Qed.


Lemma count_digits_all (s : string) :
  all_digits s = true → PyStr.count_digits s = String.length s.
Proof.
  induction s as [|c s IH]; [reflexivity|]. simpl.
  intros [Hc Hs]%andb_true_iff. rewrite Hc, (IH Hs). reflexivity.
Qed.

Lemma int_limited_digits (s : string) :
  all_digits s = true → (String.length s <= PyStr.max_str_digits)%nat →
  PyStr.int_limited s = PyStr.int_digits s 0 false.
Proof.
  intros Hall Hlen. unfold PyStr.int_limited. rewrite (count_digits_all s Hall).
  apply Nat.leb_le in Hlen. rewrite Hlen. reflexivity.
Qed.

(** A numeral that starts with a digit, of at most 4300 digits, is read
    without a sign. *)
Lemma int_unsigned (c : ascii) (s : string) :
  PyStr.isdigit c = true → all_digits s = true →
  (String.length (String c s) <= PyStr.max_str_digits)%nat →
  PyStr.int (String c s) = PyStr.int_digits (String c s) 0 false.
Proof.
  intros Hc Hs Hlen.
  assert (all_digits (String c s) = true) as Hall
    by (simpl; rewrite Hc; exact Hs).
  unfold PyStr.int. rewrite (int_strip_digits _ Hall).
  rewrite <- (int_limited_digits _ Hall Hlen).
  destruct (isdigit_not_sign c Hc) as [Hm Hp].
  destruct c as [[] [] [] [] [] [] [] []]; try reflexivity; congruence.
Qed.


(** The numeral of a positive number: digits, the first of them not zero,
    and no more of them than the number has. *)
Lemma pretty_positive_digits (p : positive) :
  ∃ c ds, pretty (N.pos p) = String c ds
          ∧ c ≠ "0"%char ∧ PyStr.isdigit c = true ∧ all_digits ds = true
          ∧ PyStr.int_digits (String c ds) 0 false = Some (Z.pos p)
          ∧ 10 ^ Z.of_nat (String.length (String c ds)) <= 10 * Z.pos p.
Proof.
  destruct (pretty_N_go_digits (N.pos p))
    as (ds & Hgo & Hall & _ & Hhead & Hint & Hlen).
  destruct Hhead as (c & ds' & -> & Hc); [lia|].
  exists c, ds'. unfold pretty, pretty_N.
  rewrite decide_False by discriminate. rewrite Hgo, app_nil_r_s.
  simpl in Hall. apply andb_true_iff in Hall as [Hd Hall].
  split; [reflexivity|]. split; [exact Hc|]. split; [exact Hd|].
  split; [exact Hall|]. split.
  - specialize (Hint "" 0 false ltac:(lia)). rewrite app_nil_r_s in Hint.
    rewrite Hint. reflexivity.
  - specialize (Hlen ltac:(lia)). exact Hlen.
Qed.





(** ** The columns of keys *)

Lemma wrap64_id (z : Z) : in_int64 z → wrap64 z = z.
Proof. unfold in_int64, wrap64. intros H. rewrite Z.mod_small; lia. Qed.

Lemma i64_mul_add (c y : Z) :
  i64_add (i64_mul c 10000) y = wrap64 (c * 10000 + y).
Proof.
  unfold i64_add, i64_mul, wrap64.
  replace ((c * 10000 + 2 ^ 63) `mod` 2 ^ 64 - 2 ^ 63 + y + 2 ^ 63)
    with ((c * 10000 + 2 ^ 63) `mod` 2 ^ 64 + y) by lia.
  rewrite Zplus_mod_idemp_l. f_equal. f_equal. lia.
Qed.

Lemma zip_with_columns {A B C D : Type} (f : B → C → D) (g : A → B)
    (h : A → C) (l : list A) :
  zip_with f (g <$> l) (h <$> l) = (λ a, f (g a) (h a)) <$> l.
Proof. induction l as [|a l IH]; csimpl; [reflexivity|]. f_equal. exact IH. Qed.

Lemma series_court_year (df : list Long.row) (court : Long.row → Z)
    (name : Long.row → string) :
  convert_judge_name_series (Long.year <$> df) (court <$> df) (name <$> df) 1
  = Some ((λ r, PyStr.str (i64_add (i64_mul (court r) 10000) (Long.year r))
                +:+ name r) <$> df).
Proof.
  unfold convert_judge_name_series, astype_str, astype_int. simpl.
  rewrite <- list_fmap_compose, zip_with_columns, <- list_fmap_compose.
  rewrite zip_with_columns. reflexivity.
Qed.

Lemma series_year (df : list Long.row) (court : list Z)
    (name : Long.row → string) :
  convert_judge_name_series (Long.year <$> df) court (name <$> df) 2
  = Some ((λ r, PyStr.str (Long.year r) +:+ name r) <$> df).
Proof.
  unfold convert_judge_name_series, astype_str, astype_int. simpl.
  rewrite <- list_fmap_compose, zip_with_columns. reflexivity.
Qed.

(** The five dictionaries, each from its column of keys. *)
Lemma name_dicts_eq (df : list Long.row) : name_dicts df = Ok (tables df).
Proof.
  unfold name_dicts, tables.
  set (up := λ r, Long.set_name_perm (PyStr.upper (Long.name_perm r)) r).
  rewrite !series_court_year, !series_year. simpl.
  rewrite <- !list_fmap_compose. reflexivity.
Qed.

Lemma make_name_dicts_eq (path : string) (fs : store) (df : list Long.row) :
  load_file path fs = Ok df → make_name_dicts path fs = Ok (tables df).
Proof. unfold make_name_dicts. intros ->. simpl. apply name_dicts_eq. Qed.

Lemma load_file_to_csv (path : string) (df : list Long.row) (fs : store) :
  load_file path (to_csv path df fs) = Ok df.
Proof. unfold load_file, to_csv. rewrite lookup_insert_eq. reflexivity. Qed.

Lemma table_key_in_range (df : list Long.row) :
  Forall (λ r, in_int64 (Long.court_num r * 10000 + Long.year r)
               ∧ in_int64 (Long.circuit_num r * 10000 + Long.year r)) df →
  tables df =
  [to_dict (court_year_key <$> df) (Long.judge_name <$> df);
   to_dict (circuit_year_key <$> df) (Long.judge_name <$> df);
   to_dict (year_key <$> df) (Long.judge_name <$> df);
   to_dict (year_key <$> df) (Long.judge_name <$> df);
   to_dict (key_text <$> df) (Long.judge_name <$> df)].
Proof.
  intros Hrange. unfold tables. simpl.
  assert (table_key 0 <$> df = court_year_key <$> df) as ->.
  { apply Forall_fmap_ext. eapply Forall_impl; [exact Hrange|].
    intros r [H _]. unfold table_key, court_year_key, composite_key.
    rewrite i64_mul_add, wrap64_id by exact H. reflexivity. }
  assert (table_key 1 <$> df = circuit_year_key <$> df) as ->.
  { apply Forall_fmap_ext. eapply Forall_impl; [exact Hrange|].
    intros r [_ H]. unfold table_key, circuit_year_key, composite_key.
    rewrite i64_mul_add, wrap64_id by exact H. reflexivity. }
  reflexivity.
Qed.

(** ** Dictionaries *)

Lemma zip_columns {A B C : Type} (g : A → B) (h : A → C) (l : list A) :
  zip (g <$> l) (h <$> l) = (λ a, (g a, h a)) <$> l.
Proof. apply zip_with_columns. Qed.

(** A dictionary filled in order answers with the value of the last row that
    has the key. *)
Lemma to_dict_lookup {A : Type} (key value : A → string) (l : list A)
    (k : string) :
  to_dict (key <$> l) (value <$> l) !! k
  = value <$> last (filter (λ a, key a = k) l).
Proof.
  unfold to_dict. rewrite zip_columns.
  induction l as [|a l IH] using rev_ind; [reflexivity|].
  rewrite fmap_app, foldl_app, filter_app. simpl.
  destruct (decide (key a = k)) as [Hk | Hk].
  - rewrite filter_cons_True by exact Hk. rewrite filter_nil, last_snoc.
    rewrite Hk. apply lookup_insert_eq.
  - rewrite filter_cons_False by exact Hk. rewrite filter_nil, app_nil_r.
    rewrite lookup_insert_ne by exact Hk. exact IH.
Qed.

Lemma filter_none {A : Type} (P : A → Prop) `{∀ x, Decision (P x)}
    (l : list A) :
  Forall (λ x, ¬ P x) l → filter P l = [].
Proof.
  induction 1 as [|x l Hx _ IH]; [reflexivity|].
  rewrite filter_cons_False by exact Hx. exact IH.
Qed.

(** The last row that satisfies [P] is the row at [j] when no later row
    does. *)
Lemma last_filter_lookup {A : Type} (P : A → Prop) `{∀ x, Decision (P x)}
    (l : list A) (j : nat) (x : A) :
  l !! j = Some x → P x →
  (∀ j' y, (j < j')%nat → l !! j' = Some y → ¬ P y) →
  last (filter P l) = Some x.
Proof.
  intros Hj Hx Hlater.
  rewrite <- (take_drop_middle l j x Hj), filter_app.
  rewrite filter_cons_True by exact Hx.
  rewrite (filter_none P (drop (S j) l)); [apply last_snoc|].
  apply Forall_forall. intros y [n Hn]%list_elem_of_lookup.
  rewrite lookup_drop in Hn. apply (Hlater (S j + n)%nat y); [lia|exact Hn].
Qed.

Lemma tables_lookup (df : list Long.row) (t : nat) (d : gmap string string) :
  tables df !! t = Some d →
  d = to_dict (table_key t <$> df) (Long.judge_name <$> df).
Proof.
  unfold tables. rewrite list_lookup_fmap.
  destruct (seq 0 5 !! t) as [t'|] eqn:Ht; [|discriminate].
  apply lookup_seq in Ht as [-> _]. simpl. congruence.
Qed.

Lemma tables_lookup_key (df : list Long.row) (t : nat)
    (d : gmap string string) (k : string) :
  tables df !! t = Some d →
  d !! k = Long.judge_name <$> last (filter (λ r, table_key t r = k) df).
Proof. intros ->%tables_lookup. apply to_dict_lookup. Qed.

Lemma tables_lookup_None (df : list Long.row) (t : nat)
    (d : gmap string string) (k : string) :
  tables df !! t = Some d →
  d !! k = None ↔ ∀ r, r ∈ df → table_key t r ≠ k.
Proof.
  intros Ht. rewrite (tables_lookup_key df t d k Ht), fmap_None, last_None.
  split.
  - intros Hnil r Hr Hk.
    assert (r ∈ filter (λ r, table_key t r = k) df) as Hin
      by (apply list_elem_of_filter; auto).
    rewrite Hnil in Hin. apply elem_of_nil in Hin. exact Hin.
  - intros Hall. apply filter_none, Forall_forall. exact Hall.
Qed.

Lemma tables_lookup_Some (df : list Long.row) (t : nat)
    (d : gmap string string) (k v : string) :
  tables df !! t = Some d → d !! k = Some v →
  ∃ r, r ∈ df ∧ table_key t r = k ∧ Long.judge_name r = v.
Proof.
  intros Ht. rewrite (tables_lookup_key df t d k Ht), fmap_Some.
  intros (r & Hlast & ->). apply last_Some_elem_of, list_elem_of_filter in Hlast.
  exists r. tauto.
Qed.



(** ** The composite keys *)




(** C6: in each of the five tables the keys are unique, and of two rows of
    the names table with the same key the later one gives the value found
    under that key afterwards: the value is the [judge_name] of the last row
    that has the key. *)
Theorem C6_last_write_wins (path : string) (fs : store) (df : list Long.row)
    (dicts : list (gmap string string)) (t : nat) (d : gmap string string) :
  load_file path fs = Ok df →
  make_name_dicts path fs = Ok dicts →
  dicts !! t = Some d →
  NoDup (map_to_list d).*1
  ∧ ∀ (i j : nat) (ri rj : Long.row),
      df !! i = Some ri → df !! j = Some rj → (i < j)%nat →
      table_key t ri = table_key t rj →
      (∀ j' r', (j < j')%nat → df !! j' = Some r' →
                table_key t r' ≠ table_key t rj) →
      d !! table_key t rj = Some (Long.judge_name rj).
Proof.
  intros Hload Hdicts Ht. split; [apply NoDup_fst_map_to_list|].
  rewrite (make_name_dicts_eq path fs df Hload) in Hdicts.
  injection Hdicts as <-. apply tables_lookup in Ht as ->.
  intros i j ri rj _ Hj _ _ Hlater. rewrite to_dict_lookup.
  rewrite (last_filter_lookup _ df j rj Hj eq_refl Hlater). reflexivity.
Qed.

Lemma C6_last_write_wins_witness :
  ∃ d, tables sample_names !! 0%nat = Some d
       ∧ d !! "52001SMITH" = Some "Smith, Jane".
Proof.
  exists (to_dict (table_key 0 <$> sample_names)
            (Long.judge_name <$> sample_names)).
  split; [reflexivity|].
  apply (C6_last_write_wins "names.csv" (to_csv "names.csv" sample_names ∅)
           sample_names (tables sample_names) 0
           (to_dict (table_key 0 <$> sample_names)
              (Long.judge_name <$> sample_names))
           (load_file_to_csv _ _ _)
           (make_name_dicts_eq _ _ _ (load_file_to_csv _ _ _))
           eq_refl)
    with (i := 1%nat) (j := 3%nat)
         (ri := names_row 5 2 "Smith, John Quincy" 2001 "SMITH")
         (rj := names_row 5 2 "Smith, Jane" 2001 "SMITH").
  - reflexivity.
  - reflexivity.
  - lia.
  - reflexivity.
  - intros j' r' Hlt Hj'. apply lookup_lt_Some in Hj'. simpl in Hj'. lia.
Defined.

(** ** The two year-only tables *)

(** C9: with [dict_type = 2] the result of [convert_judge_name_series] is
    computed from the year and the name alone, whatever the court column
    holds; so the columns [concat_name3] and [concat_name4] of any table are
    equal row for row, and the third and the fourth dictionary of
    [make_name_dicts] are the same mapping. *)
Theorem C9_year_only_tables_equal :
  (∀ (year court court' : list Z) (name : list string),
     convert_judge_name_series year court name 2
     = convert_judge_name_series year court' name 2)
  ∧ (∀ df : list Long.row,
       convert_judge_name_series (Long.year <$> df) (Long.court_num <$> df)
         (Long.name_perm <$> df) 2
       = convert_judge_name_series (Long.year <$> df)
           (Long.circuit_num <$> df) (Long.name_perm <$> df) 2)
  ∧ (∀ (path : string) (fs : store) (dicts : list (gmap string string)),
       make_name_dicts path fs = Ok dicts →
       ∃ d, dicts !! 2%nat = Some d ∧ dicts !! 3%nat = Some d).
Proof.
  split; [reflexivity|]. split; [reflexivity|].
  intros path fs dicts. unfold make_name_dicts.
  destruct (load_file path fs) as [df|e]; [|discriminate]. simpl.
  rewrite name_dicts_eq. intros [= <-]. eexists. split; reflexivity.
Qed.

Lemma C9_year_only_tables_equal_witness :
  ∃ d, tables sample_names !! 2%nat = Some d
       ∧ tables sample_names !! 3%nat = Some d
       ∧ d !! "2001J SMITH" = Some "Smith, Jane".
Proof.
  destruct C9_year_only_tables_equal as (_ & _ & H).
  destruct (H "names.csv" (to_csv "names.csv" sample_names ∅)
              (tables sample_names)
              (make_name_dicts_eq _ _ _ (load_file_to_csv _ _ _)))
    as (d & H2 & H3).
  exists d. split; [exact H2|]. split; [exact H3|].
  injection H2 as <-. vm_compute. reflexivity.
Defined.

(** ** The names table *)

Lemma wide_to_long_rows (y : Z) (df : list Wide.row)
    (x : nat * nat * Long.row) :
  x ∈ wide_to_long y df →
  ∃ w j, w ∈ df ∧ x.2 = long_row y w (perm_column j w).
Proof.
  unfold wide_to_long. intros (j & Hx & _)%list_elem_of_bind.
  apply list_elem_of_bind in Hx as ([nindex w] & Hx & Hw).
  apply list_elem_of_singleton in Hx as ->.
  exists w, j. split; [|reflexivity]. eapply elem_of_zip_r, Hw.
Qed.



Lemma drop_duplicates_from_subset (seen df : list Long.row) (r : Long.row) :
  r ∈ drop_duplicates_from seen df → r ∈ df.
Proof.
  revert seen. induction df as [|x df IH]; intros seen; simpl; [auto|].
  destruct (decide (x ∈ seen)).
  - intros H. right. eapply IH, H.
  - intros [-> | H]%elem_of_cons; [left|right; eapply IH, H].
Qed.


(** Every row of the names table comes from a wide row: it carries that
    row's court, circuit and judge name, one of its permutations, and the
    year 0. *)
Lemma make_names_df_rows (df : list Wide.row) (r : Long.row) :
  r ∈ make_names_df df →
  ∃ w j, w ∈ df ∧ r = long_row 0 w (perm_column j w) ∧ Long.name_perm r ≠ "".
Proof.
  unfold make_names_df, drop_duplicates.
  intros (x & -> & Hx)%drop_duplicates_from_subset%list_elem_of_fmap.
  apply elem_of_List_filter in Hx as [Hx Hne].
  apply wide_to_long_rows in Hx as (w & j & Hw & Hr).
  exists w, j. split; [exact Hw|]. split; [exact Hr|].
  apply negb_true_iff, bool_decide_eq_false in Hne. exact Hne.
Qed.


Lemma make_names_df_sample :
  (λ r, (Long.year r, Long.name_perm r, Long.judge_name r))
    <$> make_names_df sample_wide
  = [(0, "JOHN QUINCY SMITH", "Smith, John Quincy");
     (0, "JANE  SMITH", "Smith, Jane");
     (0, "JOHN Q SMITH", "Smith, John Quincy");
     (0, "JOHN SMITH", "Smith, John Quincy");
     (0, "JANE SMITH", "Smith, Jane");
     (0, "J QUINCY SMITH", "Smith, John Quincy");
     (0, "J  SMITH", "Smith, Jane");
     (0, "J Q SMITH", "Smith, John Quincy");
     (0, "J SMITH", "Smith, John Quincy");
     (0, "J SMITH", "Smith, Jane");
     (0, "SMITH", "Smith, John Quincy");
     (0, "SMITH", "Smith, Jane")].
Proof. vm_compute. reflexivity. Qed.



(** * Further properties of the code *)

(** ** [encode_senate_vote]: outcomes and errors *)

Lemma digit_val_nonneg (c : ascii) :
  PyStr.isdigit c = true → 0 <= PyStr.digit_val c.
Proof.
  unfold PyStr.isdigit, PyStr.digit_val.
  intros [H _]%andb_true_iff. apply N.leb_le in H. lia.
Qed.

Lemma int_digits_all_digits (s : string) (acc : Z) (seen : bool) :
  all_digits s = true → s ≠ "" ∨ seen = true → 0 <= acc →
  ∃ v, PyStr.int_digits s acc seen = Some v ∧ 0 <= v.
Proof.
  revert acc seen. induction s as [|c s IH]; intros acc seen Hall Hne Hacc.
  - destruct Hne as [Hne | ->]; [congruence|]. exists acc. split; [reflexivity|lia].
  - simpl in Hall. apply andb_true_iff in Hall as [Hc Hs].
    rewrite int_digits_digit by exact Hc.
    apply IH; [exact Hs|right; reflexivity|].
    pose proof (digit_val_nonneg c Hc). lia.
Qed.

(** A non-empty string of at most 4300 digits is an integer literal, and
    not a negative one. *)
Lemma int_all_digits (s : string) :
  all_digits s = true → s ≠ "" →
  (String.length s <= PyStr.max_str_digits)%nat →
  ∃ v, PyStr.int s = Some v ∧ 0 <= v.
Proof.
  intros Hall Hne Hlen. destruct s as [|c s]; [congruence|].
  pose proof Hall as Hall'. simpl in Hall'.
  apply andb_true_iff in Hall' as [Hc Hs].
  rewrite int_unsigned by assumption.
  apply int_digits_all_digits; [exact Hall|left; discriminate|lia].
Qed.

Lemma all_digits_no_slash (s : string) :
  all_digits s = true → PyStr.contains_char "/" s = false.
Proof.
  induction s as [|c s IH]; [reflexivity|]. simpl.
  intros [Hc Hs]%andb_true_iff.
  destruct (decide (c = "/"%char)) as [-> | _]; [discriminate|]. exact (IH Hs).
Qed.

Lemma percent_in_unit_interval (y n : Z) :
  0 <= y → 0 <= n → 0 < y + n →
  (0 <= Qred (inject_Z y / inject_Z (y + n)) <= 1)%Q.
Proof.
  intros Hy Hn Hs. rewrite Qred_correct.
  destruct (y + n) as [|p|p] eqn:Hp; try lia.
  unfold Qle, Qdiv, Qmult, Qinv, inject_Z. simpl. lia.
Qed.

Lemma encode_senate_vote_cases (row : Wide.row) :
  (∃ q, encode_senate_vote row = Ok (Wide.set_senate_percent q row))
  ∨ (encode_senate_vote row = Raise ValueError
     ∨ encode_senate_vote row = Raise ZeroDivisionError
     ∨ encode_senate_vote row = Raise OverflowError)
    ∧ Wide.senate_vote_type row ≠ "Voice"
    ∧ PyStr.contains_char "/" (Wide.senate_vote row) = true
    ∧ PyStr.contains_double "/" (Wide.senate_vote row) = false.
Proof.
  unfold encode_senate_vote.
  destruct (decide (Wide.senate_vote_type row = "Voice")) as [|Hty]; [eauto|].
  destruct (PyStr.contains_char "/" (Wide.senate_vote row)) eqn:Hc; [|eauto].
  destruct (PyStr.contains_double "/" (Wide.senate_vote row)) eqn:Hd; [eauto|].
  simpl.
  destruct (PyStr.split "/" (Wide.senate_vote row)) as [|yeas [|neas [|? ?]]];
    try (right; split; [left; reflexivity|auto]).
  unfold py_int.
  destruct (PyStr.int yeas) as [y|]; simpl;
    [|right; split; [left; reflexivity|auto]].
  destruct (PyStr.int neas) as [n|]; simpl;
    [|right; split; [left; reflexivity|auto]].
  unfold true_div. destruct (decide (y + n = 0)); simpl.
  - right. split; [right; left; reflexivity|auto].
  - destruct (float_overflow y (y + n)); simpl.
    + right. split; [right; right; reflexivity|auto].
    + left. eauto.
Qed.

(** X1.  [encode_senate_vote] has four outcomes: it returns the row with
    only [senate_percent] rewritten, or it raises [ValueError] (the text does
    not unpack into two integer literals), or [ZeroDivisionError] (both
    tallies are zero), or [OverflowError] (the quotient is too large for a
    float).  It can raise only for a row that is not a voice vote and whose
    vote text has a slash and no double slash. *)
Theorem encode_senate_vote_outcomes (row : Wide.row) :
  ((∃ q, encode_senate_vote row = Ok (Wide.set_senate_percent q row))
   ∨ encode_senate_vote row = Raise ValueError
   ∨ encode_senate_vote row = Raise ZeroDivisionError
   ∨ encode_senate_vote row = Raise OverflowError)
  ∧ ∀ e, encode_senate_vote row = Raise e →
      Wide.senate_vote_type row ≠ "Voice"
      ∧ PyStr.contains_char "/" (Wide.senate_vote row) = true
      ∧ PyStr.contains_double "/" (Wide.senate_vote row) = false.
Proof.
  destruct (encode_senate_vote_cases row) as [[q Hq] | [Hr Hcond]].
  - split; [left; eauto|]. intros e He. congruence.
  - split; [right; exact Hr|]. intros e _. exact Hcond.
Qed.

Lemma encode_senate_vote_outcomes_witness :
  Wide.senate_vote_type (roll_call "0/0") ≠ "Voice"
  ∧ PyStr.contains_char "/" (Wide.senate_vote (roll_call "0/0")) = true
  ∧ PyStr.contains_double "/" (Wide.senate_vote (roll_call "0/0")) = false.
Proof.
  destruct (encode_senate_vote_outcomes (roll_call "0/0")) as [_ H].
  apply (H ZeroDivisionError). reflexivity.
Defined.

(** X2.  A vote text made of two non-empty digit strings around one slash,
    neither longer than the 4300 digits [int] accepts, never raises
    [ValueError] nor [OverflowError]: when both tallies are zero the division
    raises [ZeroDivisionError], otherwise the stored percent lies between 0
    and 1. *)
Theorem encode_senate_vote_digit_tally (row : Wide.row) (yeas neas : string) :
  Wide.senate_vote_type row ≠ "Voice" →
  Wide.senate_vote row = yeas +:+ "/" +:+ neas →
  all_digits yeas = true → yeas ≠ "" →
  (String.length yeas <= PyStr.max_str_digits)%nat →
  all_digits neas = true → neas ≠ "" →
  (String.length neas <= PyStr.max_str_digits)%nat →
  ∃ y n, PyStr.int yeas = Some y ∧ PyStr.int neas = Some n
         ∧ 0 <= y ∧ 0 <= n
         ∧ (y + n = 0 → encode_senate_vote row = Raise ZeroDivisionError)
         ∧ (y + n ≠ 0 →
            ∃ q, encode_senate_vote row = Ok (Wide.set_senate_percent q row)
                 ∧ (0 <= q <= 1)%Q).
Proof.
  intros Hty Hvote Hya Hyne Hyl Hna Hnne Hnl.
  destruct (int_all_digits yeas Hya Hyne Hyl) as (y & Hy & Hy0).
  destruct (int_all_digits neas Hna Hnne Hnl) as (n & Hn & Hn0).
  exists y, n. repeat (split; [assumption|]). split.
  - intros Hz. unfold encode_senate_vote.
    destruct (decide (Wide.senate_vote_type row = "Voice")); [contradiction|].
    rewrite Hvote. change ("/" +:+ neas) with (String "/" neas).
    rewrite contains_char_app,
      (contains_double_app _ _ _ (all_digits_no_slash _ Hya)
         (all_digits_no_slash _ Hna)). simpl.
    rewrite (split_app _ _ _ (all_digits_no_slash _ Hya)),
      (split_no_sep _ _ (all_digits_no_slash _ Hna)).
    unfold py_int. rewrite Hy, Hn. simpl. unfold true_div.
    rewrite decide_True by exact Hz. reflexivity.
  - intros Hnz. eexists. split.
    + apply (encode_senate_vote_tally row yeas neas y n);
        auto using all_digits_no_slash.
      apply float_overflow_small; lia.
    + apply percent_in_unit_interval; lia.
Qed.

Lemma encode_senate_vote_digit_tally_witness :
  ∃ q, encode_senate_vote (roll_call "98/0")
       = Ok (Wide.set_senate_percent q (roll_call "98/0"))
       ∧ (0 <= q <= 1)%Q.
Proof.
  destruct (encode_senate_vote_digit_tally (roll_call "98/0") "98" "0")
    as (y & n & Hy & Hn & _ & _ & _ & H);
    [discriminate|reflexivity|reflexivity|discriminate
    |apply Nat.leb_le; vm_compute; reflexivity
    |reflexivity|discriminate
    |apply Nat.leb_le; vm_compute; reflexivity|].
  apply H. injection Hy as <-. injection Hn as <-. discriminate.
Defined.

(** ** [time_limit]: what the rows that are kept look like *)

Lemma cell_gt_true (c : option Z) (b : Z) :
  cell_gt c b = true ↔ ∃ v, c = Some v ∧ v > b.
Proof.
  destruct c as [v|]; simpl.
  - rewrite bool_decide_eq_true. split; [eauto|]. intros (? & [= <-] & ?). lia.
  - split; [discriminate|]. intros (? & ? & _). discriminate.
Qed.

Lemma cell_le_true (c : option Z) (b : Z) :
  cell_le c b = true ↔ ∃ v, c = Some v ∧ v <= b.
Proof.
  destruct c as [v|]; simpl.
  - rewrite bool_decide_eq_true. split; [eauto|]. intros (? & [= <-] & ?). lia.
  - split; [discriminate|]. intros (? & ? & _). discriminate.
Qed.

(** X3.  Every row that [time_limit] keeps has both years filled in: a start
    year that is at most [END_YEAR] and an end year above [START_YEAR - 2].
    A row without a start date is never kept. *)
Theorem time_limit_years START_YEAR END_YEAR (df : Wide.frame)
    (lr : Z * Wide.row) :
  lr ∈ time_limit START_YEAR END_YEAR df →
  ∃ s e, Wide.start_year lr.2 = Some s ∧ s <= END_YEAR
         ∧ Wide.end_year lr.2 = Some e ∧ e > START_YEAR - 2
         ∧ ∃ d, Wide.start_date lr.2 = Some d ∧ dt_year d = s.
Proof.
  intros (r & _ & -> & He & Hs)%time_limit_spec.
  apply cell_gt_true in He as (e & He & Hgt).
  apply cell_le_true in Hs as (s & Hs & Hle).
  exists s, e. simpl. repeat split; try assumption.
  unfold start_year_of in Hs. destruct (Wide.start_date r) as [d|]; [|discriminate].
  exists d. split; [reflexivity|]. simpl in Hs. congruence.
Qed.

Lemma time_limit_years_witness :
  ∃ s e, Wide.start_year (time_limit_columns 2020 smith_jane) = Some s
         ∧ s <= 2020
         ∧ Wide.end_year (time_limit_columns 2020 smith_jane) = Some e
         ∧ e > 1950 - 2.
Proof.
  destruct (time_limit_years 1950 2020 [(0, smith_jane)]
              (0, time_limit_columns 2020 smith_jane))
    as (s & e & Hs & Hle & He & Hgt & _); [vm_compute; left|].
  exists s, e. auto.
Defined.

Lemma List_filter_sublist {A : Type} (f : A → bool) (l : list A) :
  sublist (List.filter f l) l.
Proof.
  induction l as [|x l IH]; simpl; [constructor|].
  destruct (f x); [apply sublist_skip|apply sublist_cons]; exact IH.
Qed.

Lemma time_limit_length START_YEAR END_YEAR (df : Wide.frame) :
  (length (time_limit START_YEAR END_YEAR df) <= length df)%nat.
Proof.
  unfold time_limit.
  etransitivity; [apply List.filter_length_le|].
  etransitivity; [apply List.filter_length_le|].
  rewrite length_fmap. reflexivity.
Qed.

(** X4.  [time_limit] only removes rows: the labels of its result are a
    sublist of the labels it was given (same order, none new), so distinct
    labels stay distinct, and each row kept is a row of the input with its
    two year columns written. *)
Theorem time_limit_sublist START_YEAR END_YEAR (df : Wide.frame) :
  sublist (time_limit START_YEAR END_YEAR df)
          (prod_map id (time_limit_columns END_YEAR) <$> df)
  ∧ sublist (fst <$> time_limit START_YEAR END_YEAR df) (fst <$> df)
  ∧ (NoDup (fst <$> df) →
     NoDup (fst <$> time_limit START_YEAR END_YEAR df))
  ∧ (length (time_limit START_YEAR END_YEAR df) <= length df)%nat.
Proof.
  assert (sublist (time_limit START_YEAR END_YEAR df)
            (prod_map id (time_limit_columns END_YEAR) <$> df)) as Hsub.
  { unfold time_limit. etransitivity; apply List_filter_sublist. }
  assert (fst <$> (prod_map id (time_limit_columns END_YEAR) <$> df)
          = fst <$> df) as Hfst.
  { rewrite <- list_fmap_compose. apply list_fmap_ext. intros _ [l r] _.
    reflexivity. }
  assert (sublist (fst <$> time_limit START_YEAR END_YEAR df) (fst <$> df))
    as Hlab.
  { rewrite <- Hfst. apply fmap_sublist, Hsub. }
  split; [exact Hsub|]. split; [exact Hlab|]. split.
  - intros Hnd. eapply sublist_NoDup; [exact Hnd|exact Hlab].
  - apply sublist_length in Hsub. rewrite length_fmap in Hsub. exact Hsub.
Qed.

Lemma time_limit_sublist_witness :
  NoDup (fst <$> time_limit 1950 2020 (Wide.range_index [smith_john; king])).
Proof.
  apply (time_limit_sublist 1950 2020 (Wide.range_index [smith_john; king])).
  vm_compute.
  repeat (apply NoDup_cons_2;
          [rewrite ?not_elem_of_cons; repeat split;
           first [apply not_elem_of_nil | discriminate]|]).
  apply NoDup_nil_2.
Defined.

Lemma time_limit_columns_idemp END_YEAR (r : Wide.row) :
  time_limit_columns END_YEAR (time_limit_columns END_YEAR r)
  = time_limit_columns END_YEAR r.
Proof. reflexivity. Qed.

Lemma List_filter_all {A : Type} (f : A → bool) (l : list A) :
  Forall (λ x, f x = true) l → List.filter f l = l.
Proof.
  induction 1 as [|x l Hx _ IH]; simpl; [reflexivity|].
  rewrite Hx, IH. reflexivity.
Qed.

(** X5.  [time_limit] is idempotent: the years are recomputed from the same
    dates, and a row that passed the two tests passes them again. *)
Theorem time_limit_idempotent START_YEAR END_YEAR (df : Wide.frame) :
  time_limit START_YEAR END_YEAR (time_limit START_YEAR END_YEAR df)
  = time_limit START_YEAR END_YEAR df.
Proof.
  set (kept := time_limit START_YEAR END_YEAR df).
  assert (Forall (λ lr, prod_map id (time_limit_columns END_YEAR) lr = lr
                        ∧ cell_gt (Wide.end_year lr.2) (START_YEAR - 2) = true
                        ∧ cell_le (Wide.start_year lr.2) END_YEAR = true)
            kept) as Hkept.
  { apply Forall_forall. intros [l r'] (r & _ & Heq & He & Hs)%time_limit_spec.
    simpl in Heq. subst r'. split; [reflexivity|]. split; assumption. }
  unfold time_limit at 1.
  assert (prod_map id (time_limit_columns END_YEAR) <$> kept = kept) as ->.
  { rewrite <- (list_fmap_id kept) at 2. apply Forall_fmap_ext.
    eapply Forall_impl; [exact Hkept|]. intros lr [H _]. exact H. }
  rewrite (List_filter_all _ kept)
    by (eapply Forall_impl; [exact Hkept|]; intros lr (_ & H & _); exact H).
  apply List_filter_all.
  eapply Forall_impl; [exact Hkept|]. intros lr (_ & _ & H). exact H.
Qed.

(** ** [name_changes] on a table with the default index *)

Lemma range_index_labels (rows : list Wide.row) (lr : Z * Wide.row) :
  lr ∈ Wide.range_index rows → 0 <= lr.1 < Z.of_nat (length rows).
Proof.
  unfold Wide.range_index. destruct lr as [l r].
  intros (n & -> & Hn%elem_of_seq)%elem_of_zip_l%list_elem_of_fmap.
  simpl. lia.
Qed.

Lemma loc_missing (df : Wide.frame) (i : Z) :
  Forall (λ lr, lr.1 ≠ i) df → loc df i = Raise KeyError.
Proof.
  intros H. unfold loc.
  assert (List.filter (λ lr : Z * Wide.row, bool_decide (lr.1 = i)) df = [])
    as ->; [|reflexivity].
  induction H as [|lr df Hlr _ IH]; [reflexivity|]. simpl.
  rewrite bool_decide_eq_false_2 by exact Hlr. exact IH.
Qed.

Lemma name_changes_missing (df : Wide.frame) :
  Forall (λ lr, lr.1 ≠ 1386716 ∧ lr.1 ≠ 1382851) df →
  name_changes df = Ok df.
Proof.
  intros H. rewrite name_changes_eq. unfold make_change.
  rewrite !loc_missing
    by (eapply Forall_impl; [exact H|]; intros lr []; assumption).
  simpl. rewrite app_nil_r. reflexivity.
Qed.

Lemma time_limit_range_index_labels START_YEAR END_YEAR
    (rows : list Wide.row) :
  Z.of_nat (length rows) <= 1382851 →
  Forall (λ lr, lr.1 ≠ 1386716 ∧ lr.1 ≠ 1382851)
    (time_limit START_YEAR END_YEAR (Wide.range_index rows)).
Proof.
  intros Hlen. apply Forall_forall.
  intros [l r'] (r & Hin & _)%time_limit_spec.
  apply range_index_labels in Hin. simpl in *. lia.
Qed.

(** X6.  In [munge_fjc] the index is never set to [nid], so the rows carry
    the labels 0, 1, ... of the merged table, and the window filter keeps
    labels.  On such a table with at most 1382851 rows neither correction
    finds its target: [name_changes] returns the table as it is. *)
Theorem name_changes_default_index START_YEAR END_YEAR
    (rows : list Wide.row) :
  Z.of_nat (length rows) <= 1382851 →
  name_changes (time_limit START_YEAR END_YEAR (Wide.range_index rows))
  = Ok (time_limit START_YEAR END_YEAR (Wide.range_index rows)).
Proof.
  intros Hlen. apply name_changes_missing, time_limit_range_index_labels, Hlen.
Qed.

Lemma name_changes_default_index_witness :
  name_changes (time_limit 1950 2020 (Wide.range_index [king; smith_john]))
  = Ok (time_limit 1950 2020 (Wide.range_index [king; smith_john])).
Proof.
  apply (name_changes_default_index 1950 2020 [king; smith_john]).
  simpl. lia.
Defined.

(** ** [name_perms]: errors, character set, idempotence *)

Lemma first_char_ok (s : string) :
  s ≠ "" → ∃ c rest, s = String c rest.
Proof. destruct s as [|c rest]; [congruence|eauto]. Qed.

(** X7.  [name_perms] raises exactly when the first name is empty once the
    punctuation is removed and the blanks are trimmed, and the exception is
    then [IndexError]; on every other row it returns. *)
Theorem name_perms_error (r : Wide.row) :
  (normalised (Wide.first_name r) = "" → name_perms r = Raise IndexError)
  ∧ (normalised (Wide.first_name r) ≠ "" → ∃ r', name_perms r = Ok r')
  ∧ ∀ e, name_perms r = Raise e →
      e = IndexError ∧ normalised (Wide.first_name r) = "".
Proof.
  assert (normalised (Wide.first_name r) = "" →
          name_perms r = Raise IndexError) as Hraise.
  { unfold normalised, name_perms. simpl. intros ->. reflexivity. }
  assert (normalised (Wide.first_name r) ≠ "" → ∃ r', name_perms r = Ok r')
    as Hok.
  { intros (c & rest & Hc)%first_char_ok. eexists.
    exact (name_perms_ok r c rest Hc). }
  split; [exact Hraise|]. split; [exact Hok|].
  intros e He. destruct (decide (normalised (Wide.first_name r) = "")) as [H|H].
  - rewrite (Hraise H) in He. split; [congruence|exact H].
  - destruct (Hok H) as [r' Hr']. congruence.
Qed.

Lemma name_perms_error_witness :
  name_perms nameless = Raise IndexError
  ∧ ∃ r', name_perms smith_jane = Ok r'.
Proof.
  split.
  - apply (name_perms_error nameless). reflexivity.
  - apply (name_perms_error smith_jane). discriminate.
Defined.

Lemma upper_char_idemp (c : ascii) :
  PyStr.upper_char (PyStr.upper_char c) = PyStr.upper_char c.
Proof. destruct c as [[] [] [] [] [] [] [] []]; reflexivity. Qed.

Lemma upper_char_punct (c : ascii) :
  PyStr.is_punct (PyStr.upper_char c) = PyStr.is_punct c.
Proof. destruct c as [[] [] [] [] [] [] [] []]; reflexivity. Qed.

Lemma upper_idemp (s : string) : PyStr.upper (PyStr.upper s) = PyStr.upper s.
Proof.
  induction s as [|c s IH]; [reflexivity|]. simpl.
  rewrite upper_char_idemp, IH. reflexivity.
Qed.

Lemma upper_app (s t : string) :
  PyStr.upper (s +:+ t) = PyStr.upper s +:+ PyStr.upper t.
Proof.
  induction s as [|c s IH]; [reflexivity|]. rewrite app_cons. simpl.
  rewrite IH, app_cons. reflexivity.
Qed.

Lemma no_punct_app (s t : string) :
  no_punct (s +:+ t) = no_punct s && no_punct t.
Proof.
  induction s as [|c s IH]; [reflexivity|]. rewrite app_cons. simpl.
  rewrite IH, andb_assoc. reflexivity.
Qed.

Lemma no_punct_re_sub (s : string) : no_punct (PyStr.re_sub_punct s) = true.
Proof.
  induction s as [|c s IH]; [reflexivity|]. simpl.
  destruct (PyStr.is_punct c) eqn:Hc; [exact IH|]. simpl.
  rewrite Hc, IH. reflexivity.
Qed.

Lemma re_sub_no_punct (s : string) :
  no_punct s = true → PyStr.re_sub_punct s = s.
Proof.
  induction s as [|c s IH]; [reflexivity|]. simpl.
  intros [Hc Hs]%andb_true_iff. apply negb_true_iff in Hc.
  rewrite Hc, (IH Hs). reflexivity.
Qed.

Lemma no_punct_upper (s : string) :
  no_punct (PyStr.upper s) = no_punct s.
Proof.
  induction s as [|c s IH]; [reflexivity|]. simpl.
  rewrite upper_char_punct, IH. reflexivity.
Qed.

Lemma no_punct_lstrip (s : string) :
  no_punct s = true → no_punct (PyStr.lstrip s) = true.
Proof.
  induction s as [|c s IH]; [reflexivity|]. simpl.
  intros H. destruct (PyStr.isspace c); [|exact H].
  apply andb_true_iff in H as [_ H]. exact (IH H).
Qed.

Lemma no_punct_rstrip (s : string) :
  no_punct s = true → no_punct (PyStr.rstrip s) = true.
Proof.
  induction s as [|c s IH]; [reflexivity|]. simpl.
  intros [Hc Hs]%andb_true_iff. specialize (IH Hs).
  destruct (PyStr.rstrip s) as [|d t].
  - destruct (PyStr.isspace c); [reflexivity|]. simpl. rewrite Hc. reflexivity.
  - simpl in *. rewrite Hc, IH. reflexivity.
Qed.

Lemma no_punct_normalised (s : string) : no_punct (normalised s) = true.
Proof.
  unfold normalised, PyStr.strip. rewrite no_punct_upper.
  apply no_punct_rstrip, no_punct_lstrip, no_punct_re_sub.
Qed.

Lemma upper_normalised (s : string) :
  PyStr.upper (normalised s) = normalised s.
Proof. apply upper_idemp. Qed.

(** What [name_perms] writes, for any row it accepts. *)
Lemma name_perms_inv (r r' : Wide.row) :
  name_perms r = Ok r' →
  ∃ a rest,
    normalised (Wide.first_name r) = String a rest
    ∧ r' = Wide.set_perms
        (normalised (Wide.first_name r) +:+ " "
           +:+ normalised (Wide.middle_name r) +:+ " "
           +:+ normalised (Wide.last_name r))
        (normalised (Wide.first_name r) +:+ " "
           +:+ match normalised (Wide.middle_name r) with
               | "" => ""
               | String c _ => String (PyStr.upper_char c) ""
               end +:+ " " +:+ normalised (Wide.last_name r))
        (normalised (Wide.first_name r) +:+ " "
           +:+ normalised (Wide.last_name r))
        (String (PyStr.upper_char a) "" +:+ " "
           +:+ normalised (Wide.middle_name r) +:+ " "
           +:+ normalised (Wide.last_name r))
        (String (PyStr.upper_char a) "" +:+ " "
           +:+ match normalised (Wide.middle_name r) with
               | "" => ""
               | String c _ => String (PyStr.upper_char c) ""
               end +:+ " " +:+ normalised (Wide.last_name r))
        (String (PyStr.upper_char a) "" +:+ " "
           +:+ normalised (Wide.last_name r))
        (normalised (Wide.last_name r))
        (Wide.set_names (PyStr.re_sub_punct (Wide.first_name r))
                        (PyStr.re_sub_punct (Wide.middle_name r))
                        (PyStr.re_sub_punct (Wide.last_name r)) r).
Proof.
  intros Hr.
  destruct (normalised (Wide.first_name r)) as [|a rest] eqn:Hfirst.
  - assert (name_perms r = Raise IndexError) as Hraise; [|congruence].
    unfold normalised in Hfirst. unfold name_perms. simpl.
    rewrite Hfirst. reflexivity.
  - exists a, rest. split; [reflexivity|].
    pose proof (name_perms_ok r a rest Hfirst) as Hok. simpl in Hok.
    rewrite Hfirst in Hok. congruence.
Qed.

Lemma initial_upper_no_punct (s : string) :
  PyStr.upper s = s → no_punct s = true →
  let init := match s with
              | "" => ""
              | String c _ => String (PyStr.upper_char c) ""
              end in
  PyStr.upper init = init ∧ no_punct init = true.
Proof.
  destruct s as [|c s]; [split; reflexivity|]. simpl.
  intros _ [Hc _]%andb_true_iff.
  rewrite upper_char_idemp, upper_char_punct, Hc. split; reflexivity.
Qed.

(** X8.  Every permutation that [name_perms] writes is in upper case and
    free of the punctuation the function removes: upper-casing it again, or
    removing the punctuation again, changes nothing. *)
Theorem name_perms_charset (r r' : Wide.row) (p : string) :
  name_perms r = Ok r' → p ∈ Wide.perms r' →
  PyStr.upper p = p ∧ PyStr.re_sub_punct p = p.
Proof.
  intros Hr Hp.
  cut (PyStr.upper p = p ∧ no_punct p = true).
  { intros [Hu Hn]. split; [exact Hu|apply re_sub_no_punct, Hn]. }
  destruct (name_perms_inv r r' Hr) as (a & rest & Hfirst & ->).
  pose proof (upper_normalised (Wide.first_name r)) as HFu.
  pose proof (no_punct_normalised (Wide.first_name r)) as HFn.
  pose proof (upper_normalised (Wide.middle_name r)) as HMu.
  pose proof (no_punct_normalised (Wide.middle_name r)) as HMn.
  pose proof (upper_normalised (Wide.last_name r)) as HLu.
  pose proof (no_punct_normalised (Wide.last_name r)) as HLn.
  destruct (initial_upper_no_punct _ HMu HMn) as [HIu HIn].
  destruct (initial_upper_no_punct _ HFu HFn) as [HAu HAn].
  rewrite Hfirst in HAu, HAn.
  unfold Wide.perms in Hp. simpl in Hp.
  revert HFu HFn HMu HMn HLu HLn HIu HIn HAu HAn Hp.
  generalize (normalised (Wide.first_name r)) as first.
  generalize (normalised (Wide.last_name r)) as last.
  generalize (match normalised (Wide.middle_name r) with
              | "" => ""
              | String c _ => String (PyStr.upper_char c) ""
              end) as middle_init.
  generalize (normalised (Wide.middle_name r)) as middle.
  generalize (String (PyStr.upper_char a) "") as first_init.
  intros first_init middle middle_init last first.
  intros HFu HFn HMu HMn HLu HLn HIu HIn HAu HAn Hp.
  repeat (apply elem_of_cons in Hp as [-> | Hp]);
    [..|apply elem_of_nil in Hp; contradiction];
    rewrite ?upper_app, ?no_punct_app, ?HFu, ?HFn, ?HMu, ?HMn, ?HLu, ?HLn,
      ?HIu, ?HIn, ?HAu, ?HAn; split; reflexivity.
Qed.

Lemma name_perms_charset_witness :
  PyStr.upper "J Q SMITH" = "J Q SMITH"
  ∧ PyStr.re_sub_punct "J Q SMITH" = "J Q SMITH".
Proof.
  apply (name_perms_charset smith_john (with_perms smith_john) "J Q SMITH").
  - reflexivity.
  - vm_compute. do 4 right. left.
Defined.

Lemma re_sub_punct_idemp (s : string) :
  PyStr.re_sub_punct (PyStr.re_sub_punct s) = PyStr.re_sub_punct s.
Proof. apply re_sub_no_punct, no_punct_re_sub. Qed.

(** X9.  [name_perms] is idempotent: applied to a row it has written, it
    writes the same names and the same seven permutations. *)
Theorem name_perms_idempotent (r r' : Wide.row) :
  name_perms r = Ok r' → name_perms r' = Ok r'.
Proof.
  intros Hr. destruct (name_perms_inv r r' Hr) as (a & rest & Hfirst & Hr').
  assert (Wide.first_name r' = PyStr.re_sub_punct (Wide.first_name r)
          ∧ Wide.middle_name r' = PyStr.re_sub_punct (Wide.middle_name r)
          ∧ Wide.last_name r' = PyStr.re_sub_punct (Wide.last_name r))
    as (Hf & Hm & Hl) by (rewrite Hr'; repeat split; reflexivity).
  assert (∀ s, normalised (PyStr.re_sub_punct s) = normalised s) as Hnorm.
  { intros s. unfold normalised. rewrite re_sub_punct_idemp. reflexivity. }
  assert (normalised (Wide.first_name r') = String a rest) as Hfirst'.
  { rewrite Hf, Hnorm. exact Hfirst. }
  rewrite (name_perms_ok r' a rest Hfirst'). simpl.
  rewrite Hf, Hm, Hl, !Hnorm, !re_sub_punct_idemp, Hfirst.
  rewrite <- Hfirst. clear Hf Hm Hl Hfirst' Hr. subst r'. reflexivity.
Qed.

Lemma name_perms_idempotent_witness :
  name_perms (with_perms smith_jane) = Ok (with_perms smith_jane).
Proof.
  apply (name_perms_idempotent smith_jane (with_perms smith_jane)).
  reflexivity.
Defined.

(** ** [make_names_df]: which rows the names table holds *)

Lemma drop_duplicates_from_spec (seen df : list Long.row) (r : Long.row) :
  r ∈ drop_duplicates_from seen df ↔ r ∈ df ∧ r ∉ seen.
Proof.
  revert seen. induction df as [|x df IH]; intros seen; simpl.
  - rewrite elem_of_nil. tauto.
  - destruct (decide (x ∈ seen)) as [Hx | Hx].
    + rewrite IH, elem_of_cons. split; [tauto|].
      intros [[-> | H] Hn]; [contradiction|tauto].
    + rewrite !elem_of_cons, IH, not_elem_of_cons. split.
      * intros [-> | [H [Hne Hn]]]; [tauto|tauto].
      * intros [[-> | H] Hn]; [tauto|].
        destruct (decide (r = x)); [tauto|tauto].
Qed.

Lemma drop_duplicates_from_NoDup (seen df : list Long.row) :
  NoDup (drop_duplicates_from seen df).
Proof.
  revert seen. induction df as [|x df IH]; intros seen; simpl.
  - constructor.
  - destruct (decide (x ∈ seen)); [apply IH|].
    apply NoDup_cons_2; [|apply IH].
    rewrite drop_duplicates_from_spec, not_elem_of_cons. tauto.
Qed.

Lemma drop_duplicates_from_sublist (seen df : list Long.row) :
  sublist (drop_duplicates_from seen df) df.
Proof.
  revert seen. induction df as [|x df IH]; intros seen; simpl.
  - constructor.
  - destruct (decide (x ∈ seen)); [apply sublist_cons|apply sublist_skip];
      apply IH.
Qed.

Lemma wide_to_long_complete (y : Z) (df : list Wide.row) (w : Wide.row)
    (j : nat) :
  w ∈ df → (1 <= j <= 7)%nat →
  ∃ nindex, (nindex, j, long_row y w (perm_column j w)) ∈ wide_to_long y df.
Proof.
  intros [i Hi]%list_elem_of_lookup Hj. exists i.
  unfold wide_to_long. apply list_elem_of_bind. exists j. split.
  - apply list_elem_of_bind. exists (i, w). split; [apply list_elem_of_here|].
    apply list_elem_of_lookup. exists i. apply lookup_zip_Some.
    split; [|exact Hi]. apply lookup_seq. split; [reflexivity|].
    eapply lookup_lt_Some, Hi.
  - apply elem_of_seq. lia.
Qed.

Lemma wide_to_long_sound (y : Z) (df : list Wide.row)
    (x : nat * nat * Long.row) :
  x ∈ wide_to_long y df →
  ∃ w, w ∈ df ∧ (1 <= x.1.2 <= 7)%nat
       ∧ x.2 = long_row y w (perm_column x.1.2 w).
Proof.
  unfold wide_to_long. intros (j & Hx & Hj%elem_of_seq)%list_elem_of_bind.
  apply list_elem_of_bind in Hx as ([nindex w] & Hx & Hw).
  apply list_elem_of_singleton in Hx as ->.
  exists w. simpl. split; [eapply elem_of_zip_r, Hw|]. split; [lia|reflexivity].
Qed.

(** X10.  The names table holds exactly the non-empty permutations of the
    input rows: a row is in it if and only if it is made of one input row's
    years, court, circuit and judge name, the year 0, and one of that row's
    seven permutations that is not the empty string. *)
Theorem make_names_df_spec (df : list Wide.row) (r : Long.row) :
  r ∈ make_names_df df ↔
  ∃ w j, w ∈ df ∧ (1 <= j <= 7)%nat
         ∧ r = long_row 0 w (perm_column j w) ∧ perm_column j w ≠ "".
Proof.
  unfold make_names_df, drop_duplicates.
  rewrite drop_duplicates_from_spec, list_elem_of_fmap. split.
  - intros [(x & -> & [Hx Hne]%elem_of_List_filter) _].
    apply wide_to_long_sound in Hx as (w & Hw & Hj & Hr).
    exists w, x.1.2. split; [exact Hw|]. split; [exact Hj|].
    split; [exact Hr|].
    apply negb_true_iff, bool_decide_eq_false in Hne.
    rewrite Hr in Hne. exact Hne.
  - intros (w & j & Hw & Hj & -> & Hne). split; [|apply not_elem_of_nil].
    destruct (wide_to_long_complete 0 df w j Hw Hj) as [nindex Hin].
    exists (nindex, j, long_row 0 w (perm_column j w)).
    split; [reflexivity|]. apply elem_of_List_filter. split; [exact Hin|].
    apply negb_true_iff, bool_decide_eq_false. exact Hne.
Qed.

Lemma make_names_df_spec_witness :
  long_row 0 (with_perms smith_jane) "J SMITH" ∈ make_names_df sample_wide.
Proof.
  apply (make_names_df_spec sample_wide).
  exists (with_perms smith_jane), 6%nat.
  split; [apply list_elem_of_further, list_elem_of_here|].
  split; [lia|]. split; [reflexivity|discriminate].
Defined.

(** X11.  The names table has no two equal rows and no row with an empty
    permutation, and its rows come in the order in which [wide_to_long]
    produces them. *)
Theorem make_names_df_no_duplicates (df : list Wide.row) :
  NoDup (make_names_df df)
  ∧ Forall (λ r, Long.name_perm r ≠ "") (make_names_df df)
  ∧ sublist (make_names_df df) (snd <$> wide_to_long 0 df).
Proof.
  split; [apply drop_duplicates_from_NoDup|]. split.
  - apply Forall_forall. intros r (w & j & _ & _ & Hne)%make_names_df_rows.
    exact Hne.
  - unfold make_names_df, drop_duplicates.
    etransitivity; [apply drop_duplicates_from_sublist|].
    apply fmap_sublist, List_filter_sublist.
Qed.

(** ** [convert_judge_name]: keys can be read back *)

Lemma str_int_inj (n1 n2 : Z) : PyStr.str n1 = PyStr.str n2 → n1 = n2.
Proof.
  unfold PyStr.str. intros H. exact (inj pretty n1 n2 H).
Qed.

(** The shape of [str n]: digits, after a minus sign when [n] is negative;
    the first digit is zero only for [n = 0]. *)
Lemma str_shape (n : Z) :
  (0 <= n ∧ ∃ c ds, PyStr.str n = String c ds ∧ PyStr.isdigit c = true
                    ∧ all_digits ds = true
                    ∧ (c = "0"%char → n = 0))
  ∨ (n < 0 ∧ ∃ ds, PyStr.str n = String "-" ds ∧ all_digits ds = true).
Proof.
  destruct n as [|p|p].
  - left. split; [lia|]. exists "0"%char, "". repeat split; reflexivity.
  - left. split; [lia|].
    destruct (pretty_positive_digits p) as (c & ds & Heq & Hc & Hd & Hall & _).
    exists c, ds. unfold PyStr.str, pretty, pretty_Z, pretty, pretty_positive.
    rewrite Heq. repeat split; try assumption. intros ->. congruence.
  - right. split; [lia|].
    destruct (pretty_positive_digits p) as (c & ds & Heq & Hc & Hd & Hall & _).
    exists (String c ds). unfold PyStr.str, pretty, pretty_Z, pretty, pretty_positive.
    rewrite Heq. split; [reflexivity|]. simpl. rewrite Hd, Hall. reflexivity.
Qed.

Lemma digits_app_inj (d1 d2 t1 t2 : string) :
  all_digits d1 = true → all_digits d2 = true →
  starts_with_digit t1 = false → starts_with_digit t2 = false →
  d1 +:+ t1 = d2 +:+ t2 → d1 = d2 ∧ t1 = t2.
Proof.
  revert d2. induction d1 as [|c d1 IH]; intros d2 H1 H2 Ht1 Ht2 Heq.
  - destruct d2 as [|c d2]; [split; [reflexivity|exact Heq]|].
    rewrite app_nil, app_cons in Heq. subst t1. simpl in *.
    apply andb_true_iff in H2 as [H2 _]. congruence.
  - destruct d2 as [|c' d2].
    + rewrite app_nil, app_cons in Heq. subst t2. simpl in *.
      apply andb_true_iff in H1 as [H1 _]. congruence.
    + rewrite !app_cons in Heq. injection Heq as -> Heq. simpl in *.
      apply andb_true_iff in H1 as [_ H1]. apply andb_true_iff in H2 as [_ H2].
      destruct (IH d2 H1 H2 Ht1 Ht2 Heq) as [-> ->]. split; reflexivity.
Qed.

(** A numeral followed by a text that does not start with a digit determines
    both the number and the text. *)
Lemma str_app_inj (n1 n2 : Z) (t1 t2 : string) :
  starts_with_digit t1 = false → starts_with_digit t2 = false →
  PyStr.str n1 +:+ t1 = PyStr.str n2 +:+ t2 → n1 = n2 ∧ t1 = t2.
Proof.
  intros Ht1 Ht2 Heq.
  cut (PyStr.str n1 = PyStr.str n2 ∧ t1 = t2).
  { intros [H ->]. split; [apply str_int_inj, H|reflexivity]. }
  destruct (str_shape n1) as [(_ & c1 & ds1 & E1 & Hc1 & Hd1 & _)
                             | (_ & ds1 & E1 & Hd1)];
    destruct (str_shape n2) as [(_ & c2 & ds2 & E2 & Hc2 & Hd2 & _)
                               | (_ & ds2 & E2 & Hd2)];
    rewrite E1, E2 in Heq |- *.
  - apply digits_app_inj in Heq; try assumption; simpl;
      rewrite ?Hc1, ?Hc2; assumption.
  - rewrite !app_cons in Heq. injection Heq as -> _. discriminate.
  - rewrite !app_cons in Heq. injection Heq as <- _. discriminate.
  - rewrite !app_cons in Heq. injection Heq as Heq.
    apply digits_app_inj in Heq as [-> ->]; try assumption. split; reflexivity.
Qed.

(** X12.  Keys are unambiguous.  For names that do not start with a digit,
    a year-only key determines the year and the name, and a court-and-year
    key with years in 0..9999 determines the court, the year and the name. *)
Theorem convert_judge_name_injective (y1 y2 c1 c2 : Z) (name1 name2 : string) :
  starts_with_digit name1 = false → starts_with_digit name2 = false →
  (convert_judge_name y1 c1 name1 2 = convert_judge_name y2 c2 name2 2 →
   y1 = y2 ∧ name1 = name2)
  ∧ (0 <= y1 < 10000 → 0 <= y2 < 10000 →
     convert_judge_name y1 c1 name1 1 = convert_judge_name y2 c2 name2 1 →
     c1 = c2 ∧ y1 = y2 ∧ name1 = name2).
Proof.
  intros H1 H2. unfold convert_judge_name. simpl. split.
  - apply str_app_inj; assumption.
  - intros Hy1 Hy2 [Hnum ->]%str_app_inj; try assumption.
    repeat split; lia.
Qed.

Lemma convert_judge_name_injective_witness :
  convert_judge_name 2001 5 "SMITH" 1 ≠ convert_judge_name 2001 5 "J SMITH" 1
  ∧ convert_judge_name 2001 5 "SMITH" 1 ≠ convert_judge_name 1 520 "SMITH" 1.
Proof.
  split; intros Hkey.
  - destruct (convert_judge_name_injective 2001 2001 5 5 "SMITH" "J SMITH"
                eq_refl eq_refl) as [_ H].
    destruct H as (_ & _ & H); [lia|lia|exact Hkey|discriminate].
  - destruct (convert_judge_name_injective 2001 1 5 520 "SMITH" "SMITH"
                eq_refl eq_refl) as [_ H].
    destruct H as (H & _ & _); [lia|lia|exact Hkey|discriminate].
Defined.

(** ** [convert_judge_name_series] and [convert_judge_name] *)

Lemma series_rows_1 (rows : list (Z * Z * string)) :
  convert_judge_name_series (year_column rows) (court_column rows)
    (name_column_of rows) 1
  = Some ((λ x, PyStr.str (i64_add (i64_mul x.1.2 10000) x.1.1) +:+ x.2)
            <$> rows).
Proof.
  unfold convert_judge_name_series, astype_str, astype_int,
    year_column, court_column, name_column_of. simpl.
  rewrite <- list_fmap_compose, zip_with_columns, <- list_fmap_compose.
  rewrite zip_with_columns. reflexivity.
Qed.

Lemma series_rows_2 (rows : list (Z * Z * string)) :
  convert_judge_name_series (year_column rows) (court_column rows)
    (name_column_of rows) 2
  = Some ((λ x, PyStr.str x.1.1 +:+ x.2) <$> rows).
Proof.
  unfold convert_judge_name_series, astype_str, astype_int,
    year_column, court_column, name_column_of. simpl.
  rewrite <- list_fmap_compose, zip_with_columns. reflexivity.
Qed.

(** X13.  The column version agrees with the scalar version row by row: for
    [dict_type = 2] always, for [dict_type = 1] on the rows where
    court*10000+year fits in 64 bits.  For any other [dict_type] the column
    version returns nothing while the scalar version returns the name. *)
Theorem series_agrees_with_scalar (rows : list (Z * Z * string))
    (dict_type : Z) :
  convert_judge_name_series (year_column rows) (court_column rows)
    (name_column_of rows) 2
  = Some ((λ x, convert_judge_name x.1.1 x.1.2 x.2 2) <$> rows)
  ∧ (Forall (λ x, in_int64 (x.1.2 * 10000 + x.1.1)) rows →
     convert_judge_name_series (year_column rows) (court_column rows)
       (name_column_of rows) 1
     = Some ((λ x, convert_judge_name x.1.1 x.1.2 x.2 1) <$> rows))
  ∧ (dict_type ≠ 1 → dict_type ≠ 2 →
     convert_judge_name_series (year_column rows) (court_column rows)
       (name_column_of rows) dict_type = None
     ∧ ∀ y c name, convert_judge_name y c name dict_type = name).
Proof.
  split; [apply series_rows_2|]. split.
  - intros Hrange. rewrite series_rows_1. f_equal.
    apply Forall_fmap_ext. eapply Forall_impl; [exact Hrange|].
    intros x Hx. unfold convert_judge_name. simpl.
    rewrite i64_mul_add, wrap64_id by exact Hx. reflexivity.
  - intros H1 H2. unfold convert_judge_name_series, convert_judge_name.
    rewrite !decide_False by assumption. split; [reflexivity|].
    intros y c name. rewrite !decide_False by assumption. reflexivity.
Qed.

Lemma series_agrees_with_scalar_witness :
  convert_judge_name_series [2001; 1999] [5; 12] ["SMITH"; "J DOE"] 1
  = Some ["52001SMITH"; "121999J DOE"]
  ∧ convert_judge_name_series [2001] [5] ["SMITH"] 3 = None
  ∧ convert_judge_name 2001 5 "SMITH" 3 = "SMITH".
Proof.
  destruct (series_agrees_with_scalar
              [(2001, 5, "SMITH"); (1999, 12, "J DOE")] 3) as (_ & H1 & H3).
  split; [apply H1; unfold in_int64; repeat constructor; simpl; lia|].
  destruct (series_agrees_with_scalar [(2001, 5, "SMITH")] 3) as (_ & _ & H).
  destruct H as [Hs Hc]; [lia|lia|]. split; [exact Hs|apply Hc].
Defined.

(** ** Looking a key up in the tables *)

Lemma tables_length (df : list Long.row) : length (tables df) = 5%nat.
Proof. reflexivity. Qed.

(** X14.  A lookup in any of the tables of [make_name_dicts] misses exactly
    when no row of the names table has that key; when it hits, the value is
    the [judge_name] of a row of the table that has the key.  The list
    returned always has five tables. *)
Theorem name_dicts_lookup (path : string) (fs : store) (df : list Long.row)
    (dicts : list (gmap string string)) (t : nat) (d : gmap string string)
    (k : string) :
  load_file path fs = Ok df →
  make_name_dicts path fs = Ok dicts →
  dicts !! t = Some d →
  length dicts = 5%nat
  ∧ (d !! k = None ↔ ∀ r, r ∈ df → table_key t r ≠ k)
  ∧ (∀ v, d !! k = Some v →
       ∃ r, r ∈ df ∧ table_key t r = k ∧ Long.judge_name r = v)
  ∧ (∀ r, r ∈ df → is_Some (d !! table_key t r)).
Proof.
  intros Hload Hdicts Ht.
  rewrite (make_name_dicts_eq path fs df Hload) in Hdicts.
  injection Hdicts as <-.
  split; [apply tables_length|].
  split; [apply tables_lookup_None, Ht|].
  split; [intros v; apply tables_lookup_Some, Ht|].
  intros r Hr. apply not_eq_None_Some. intros Hnone.
  pose proof (proj1 (tables_lookup_None df t d _ Ht) Hnone) as Hall.
  exact (Hall r Hr eq_refl).
Qed.

Lemma name_dicts_lookup_witness :
  ∃ d, tables sample_names !! 4%nat = Some d
       ∧ d !! "JONES" = None
       ∧ is_Some (d !! "J SMITH").
Proof.
  exists (to_dict (table_key 4 <$> sample_names)
            (Long.judge_name <$> sample_names)).
  split; [reflexivity|].
  destruct (name_dicts_lookup "names.csv" (to_csv "names.csv" sample_names ∅)
              sample_names (tables sample_names) 4
              (to_dict (table_key 4 <$> sample_names)
                 (Long.judge_name <$> sample_names)) "JONES"
              (load_file_to_csv _ _ _)
              (make_name_dicts_eq _ _ _ (load_file_to_csv _ _ _)) eq_refl)
    as (_ & Hmiss & _ & Hhit).
  split.
  - apply Hmiss. intros r Hr. unfold sample_names in Hr.
    repeat (apply elem_of_cons in Hr as [-> | Hr]); try discriminate.
    apply elem_of_nil in Hr. contradiction.
  - apply (Hhit (names_row 5 2 "Smith, John Quincy" 2001 "J SMITH")).
    apply list_elem_of_here.
Defined.

(** ** Lookups in the tables the pipeline builds *)

Lemma perms_perm_column (w : Wide.row) (p : string) :
  p ∈ Wide.perms w ↔ ∃ j, (1 <= j <= 7)%nat ∧ perm_column j w = p.
Proof.
  unfold Wide.perms. split.
  - intros Hp.
    repeat (apply elem_of_cons in Hp as [-> | Hp]);
      [exists 1%nat|exists 2%nat|exists 3%nat|exists 4%nat|exists 5%nat
      |exists 6%nat|exists 7%nat|apply elem_of_nil in Hp; contradiction];
      (split; [lia|reflexivity]).
  - intros (j & Hj & <-).
    assert (j = 1 ∨ j = 2 ∨ j = 3 ∨ j = 4 ∨ j = 5 ∨ j = 6 ∨ j = 7)%nat
      as H by lia.
    repeat (destruct H as [-> | H]); try subst j; unfold perm_column; simpl;
      repeat first [apply list_elem_of_here | apply list_elem_of_further].
Qed.

Lemma perm_column_nonempty (w : Wide.row) (j : nat) :
  perm_column j w ≠ "" → perm_column j w ∈ Wide.perms w.
Proof.
  unfold perm_column. intros Hne.
  destruct (nth_in_or_default (j - 1) (Wide.perms w) "") as [H | H].
  - apply list_elem_of_In, H.
  - contradiction.
Qed.

Lemma pipeline_tables (path : string) (df : list Wide.row) (fs : store) :
  make_name_dicts path (write_names path df fs)
  = Ok (tables (make_names_df df)).
Proof. apply make_name_dicts_eq, load_file_to_csv. Qed.

(** X15.  The names table is written with the year 0, so the year-only
    tables built from it hold only keys that start with ["0"].  A year-only
    key made by [convert_judge_name] for any other year is found in neither
    of them, whatever the name. *)
Theorem year_key_never_found (path : string) (df : list Wide.row) (fs : store)
    (dicts : list (gmap string string)) (t : nat) (d : gmap string string)
    (y court : Z) (name : string) :
  make_name_dicts path (write_names path df fs) = Ok dicts →
  t = 2%nat ∨ t = 3%nat → dicts !! t = Some d → y ≠ 0 →
  d !! convert_judge_name y court name 2 = None.
Proof.
  intros Hdicts Ht Hd Hy. rewrite pipeline_tables in Hdicts.
  injection Hdicts as <-. apply (tables_lookup_None _ t d _ Hd).
  intros r (w & j & _ & -> & _)%make_names_df_rows Hkey.
  unfold convert_judge_name in Hkey. simpl in Hkey.
  assert (table_key t (long_row 0 w (perm_column j w))
          = String "0" (key_text (long_row 0 w (perm_column j w)))) as Hk
    by (destruct Ht as [-> | ->]; reflexivity).
  rewrite Hk in Hkey.
  destruct (str_shape y) as [(_ & c & ds & E & _ & _ & Hz) | (_ & ds & E & _)];
    rewrite E, app_cons in Hkey; injection Hkey as Hc _.
  - apply Hy, Hz. congruence.
  - discriminate.
Qed.

Lemma year_key_never_found_witness :
  ∃ d, tables (make_names_df sample_wide) !! 2%nat = Some d
       ∧ d !! convert_judge_name 1995 5 "JANE SMITH" 2 = None
       ∧ d !! convert_judge_name 0 5 "JANE SMITH" 2 = Some "Smith, Jane".
Proof.
  eexists. split; [reflexivity|]. split.
  - apply (year_key_never_found "names.csv" sample_wide ∅
             (tables (make_names_df sample_wide)) 2 _ 1995 5 "JANE SMITH");
      [apply pipeline_tables|left; reflexivity|reflexivity|lia].
  - vm_compute. reflexivity.
Defined.

(** X16.  Likewise for the court-and-year and circuit-and-year tables: when
    the court codes times 10000 fit in 64 bits and no permutation starts
    with a digit, a key made by [convert_judge_name] for a year in 1..9999
    and a name that does not start with a digit is found in neither. *)
Theorem court_year_key_never_found (path : string) (df : list Wide.row)
    (fs : store) (dicts : list (gmap string string)) (t : nat)
    (d : gmap string string) (y court : Z) (name : string) :
  Forall (λ w, in_int64 (Wide.court_num w * 10000)
               ∧ in_int64 (Wide.circuit_num w * 10000)
               ∧ Forall (λ p, starts_with_digit (PyStr.upper p) = false)
                   (Wide.perms w)) df →
  make_name_dicts path (write_names path df fs) = Ok dicts →
  t = 0%nat ∨ t = 1%nat → dicts !! t = Some d →
  0 < y < 10000 → starts_with_digit name = false →
  d !! convert_judge_name y court name 1 = None.
Proof.
  intros Hdf Hdicts Ht Hd Hy Hname. rewrite pipeline_tables in Hdicts.
  injection Hdicts as <-. apply (tables_lookup_None _ t d _ Hd).
  intros r (w & j & Hw & -> & Hne)%make_names_df_rows Hkey.
  rewrite Forall_forall in Hdf. destruct (Hdf w Hw) as (Hc & Hq & Hperms).
  rewrite Forall_forall in Hperms.
  specialize (Hperms _ (perm_column_nonempty w j Hne)).
  unfold convert_judge_name in Hkey. simpl in Hkey.
  destruct Ht as [-> | ->]; unfold table_key in Hkey; simpl in Hkey;
    rewrite i64_mul_add, Z.add_0_r, wrap64_id in Hkey by assumption;
    apply str_app_inj in Hkey as [Hnum _]; try assumption; lia.
Qed.

Lemma court_year_key_never_found_witness :
  ∃ d, tables (make_names_df sample_wide) !! 0%nat = Some d
       ∧ d !! convert_judge_name 1995 5 "JANE SMITH" 1 = None
       ∧ d !! convert_judge_name 0 5 "JANE SMITH" 1 = Some "Smith, Jane".
Proof.
  eexists. split; [reflexivity|]. split.
  - apply (court_year_key_never_found "names.csv" sample_wide ∅
             (tables (make_names_df sample_wide)) 0 _ 1995 5 "JANE SMITH");
      [|apply pipeline_tables|left; reflexivity|reflexivity|lia|reflexivity].
    unfold in_int64. repeat constructor; simpl; lia.
  - vm_compute. reflexivity.
Defined.

(** X17.  End to end, when the names file reads back as the table
    [make_names_df] built (which asks that no cell of it is a text the reader
    takes for a missing value): for every input row and every permutation of
    it that is not empty, the bare-name table has the upper-cased permutation
    as a key and the year-only tables have that text after ["0"]; the value
    found is the [judge_name] of an input row that has a permutation with the
    same upper-cased text. *)
Theorem pipeline_finds_every_permutation (path : string)
    (df : list Wide.row) (fs : store) (dicts : list (gmap string string))
    (w : Wide.row) (p : string) :
  load_file path fs = Ok (make_names_df df) →
  make_name_dicts path fs = Ok dicts →
  w ∈ df → p ∈ Wide.perms w → p ≠ "" →
  ∃ d2 d3 d4 v2 v3 v4,
    dicts !! 2%nat = Some d2 ∧ dicts !! 3%nat = Some d3
    ∧ dicts !! 4%nat = Some d4
    ∧ d2 !! ("0" +:+ PyStr.upper p) = Some v2
    ∧ d3 !! ("0" +:+ PyStr.upper p) = Some v3
    ∧ d4 !! PyStr.upper p = Some v4
    ∧ Forall (λ v, ∃ w' p', w' ∈ df ∧ p' ∈ Wide.perms w'
                            ∧ PyStr.upper p' = PyStr.upper p
                            ∧ v = Wide.judge_name w') [v2; v3; v4].
Proof.
  intros Hload Hdicts Hw Hp Hne.
  rewrite (make_name_dicts_eq path fs _ Hload) in Hdicts.
  injection Hdicts as <-.
  apply perms_perm_column in Hp as (j & Hj & <-).
  set (r := long_row 0 w (perm_column j w)).
  assert (r ∈ make_names_df df) as Hr.
  { unfold make_names_df, drop_duplicates.
    apply drop_duplicates_from_spec. split; [|apply not_elem_of_nil].
    destruct (wide_to_long_complete 0 df w j Hw Hj) as [nindex Hin].
    apply list_elem_of_fmap. exists (nindex, j, r). split; [reflexivity|].
    apply elem_of_List_filter. split; [exact Hin|].
    apply negb_true_iff, bool_decide_eq_false. exact Hne. }
  assert (∀ t d, tables (make_names_df df) !! t = Some d →
            ∃ v, d !! table_key t r = Some v
                 ∧ ∃ w' p', w' ∈ df ∧ p' ∈ Wide.perms w'
                            ∧ (table_key t r = table_key t
                                 (long_row 0 w' p'))
                            ∧ v = Wide.judge_name w') as Hfind.
  { intros t d Hd.
    destruct (d !! table_key t r) as [v|] eqn:Hv.
    - exists v. split; [reflexivity|].
      destruct (tables_lookup_Some _ t d _ v Hd Hv) as (r' & Hr' & Hk & Hjn).
      apply make_names_df_rows in Hr' as (w' & j' & Hw' & -> & Hne').
      exists w', (perm_column j' w'). split; [exact Hw'|].
      split; [apply perm_column_nonempty, Hne'|]. split; [congruence|].
      rewrite <- Hjn. reflexivity.
    - pose proof (proj1 (tables_lookup_None _ t d _ Hd) Hv r Hr). congruence. }
  destruct (Hfind 2%nat _ eq_refl) as (v2 & H2 & w2 & p2 & Hw2 & Hp2 & Hk2 & ->).
  destruct (Hfind 3%nat _ eq_refl) as (v3 & H3 & w3 & p3 & Hw3 & Hp3 & Hk3 & ->).
  destruct (Hfind 4%nat _ eq_refl) as (v4 & H4 & w4 & p4 & Hw4 & Hp4 & Hk4 & ->).
  eexists _, _, _, _, _, _.
  split; [reflexivity|]. split; [reflexivity|]. split; [reflexivity|].
  split; [exact H2|]. split; [exact H3|]. split; [exact H4|].
  unfold table_key, key_text in Hk2, Hk3, Hk4. simpl in Hk2, Hk3, Hk4.
  apply (inj (String.app "0")) in Hk2. apply (inj (String.app "0")) in Hk3.
  repeat (apply Forall_cons; split; [eauto 10|]). apply Forall_nil_2.
Qed.

Lemma pipeline_finds_every_permutation_witness :
  ∃ d4 v4, tables (make_names_df sample_wide) !! 4%nat = Some d4
           ∧ d4 !! "J Q SMITH" = Some v4
           ∧ ∃ w', w' ∈ sample_wide ∧ v4 = Wide.judge_name w'.
Proof.
  destruct (pipeline_finds_every_permutation "names.csv" sample_wide
              (to_csv "names.csv" (make_names_df sample_wide) ∅)
              (tables (make_names_df sample_wide))
              (with_perms smith_john) "J Q SMITH")
    as (d2 & d3 & d4 & v2 & v3 & v4 & _ & _ & H4 & _ & _ & Hv4 & Hall);
    [apply load_file_to_csv
    |apply make_name_dicts_eq, load_file_to_csv
    |apply list_elem_of_here
    |vm_compute; do 4 right; left|discriminate|].
  exists d4, v4. split; [exact H4|]. split; [exact Hv4|].
  apply Forall_cons in Hall as [_ Hall]. apply Forall_cons in Hall as [_ Hall].
  apply Forall_cons in Hall as [(w' & p' & Hw' & _ & _ & Hv) _].
  exists w'. split; [exact Hw'|exact Hv].
Defined.

(** ** Forward fill *)

Section Pad.

Context {A : Type} (to_replace : A → bool).

Lemma pad_from_length (last : option A) (series : list A) :
  length (pad_from to_replace last series) = length series.
Proof.
  revert last. induction series as [|x series IH]; intros last; simpl;
    [reflexivity|].
  destruct (to_replace x); simpl; rewrite IH; reflexivity.
Qed.

(** The cell at [i] after the fill: its own value when it is not to be
    replaced; otherwise the value of the last cell before it that is not to
    be replaced, or [last] when there is none, or its own value when there is
    no [last] either. *)
Lemma pad_from_lookup (last : option A) (series : list A) (i : nat) (x : A) :
  series !! i = Some x →
  pad_from to_replace last series !! i
  = Some (if to_replace x
          then from_option id x
                 (match
                    list.last
                      (filter (λ y, to_replace y = false) (take i series))
                  with
                  | Some y => Some y
                  | None => last
                  end)
          else x).
Proof.
  revert last i. induction series as [|y series IH]; intros last i Hi;
    [discriminate|].
  destruct i as [|i]; simpl in Hi.
  - injection Hi as ->. simpl. destruct (to_replace x); reflexivity.
  - simpl pad_from. destruct (to_replace y) eqn:Hy; simpl.
    + rewrite (IH last i Hi). rewrite filter_cons_False by congruence.
      reflexivity.
    + rewrite (IH (Some y) i Hi). rewrite filter_cons_True by exact Hy.
      destruct (filter _ (take i series)) as [|z l] using rev_ind;
        [reflexivity|]. rewrite app_comm_cons, !last_snoc. reflexivity.
Qed.

Lemma pad_from_kept (last : option A) (series : list A) (i : nat) (x : A) :
  series !! i = Some x → to_replace x = false →
  pad_from to_replace last series !! i = Some x.
Proof. intros Hi Hx. rewrite (pad_from_lookup last series i x Hi), Hx. reflexivity. Qed.

Lemma pad_from_filled (series : list A) (i j : nat) (x z : A) :
  series !! i = Some x → to_replace x = false → (i < j)%nat →
  replace_ffill to_replace series !! j = Some z → to_replace z = false.
Proof.
  intros Hi Hx Hij Hz.
  destruct (series !! j) as [w|] eqn:Hj.
  2:{ apply lookup_lt_Some in Hz. apply lookup_ge_None in Hj.
      unfold replace_ffill in Hz. rewrite pad_from_length in Hz. lia. }
  unfold replace_ffill in Hz. rewrite (pad_from_lookup (head series) series j w Hj) in Hz.
  injection Hz as <-. destruct (to_replace w) eqn:Hw; [|exact Hw].
  assert (x ∈ filter (λ y, to_replace y = false) (take j series)) as Hin.
  { apply list_elem_of_filter. split; [exact Hx|].
    apply list_elem_of_lookup. exists i. rewrite lookup_take_lt by exact Hij.
    exact Hi. }
  destruct (list.last (filter _ (take j series))) as [v|] eqn:Hlast.
  - simpl. apply last_Some_elem_of, list_elem_of_filter in Hlast. tauto.
  - apply last_None in Hlast. rewrite Hlast in Hin.
    apply elem_of_nil in Hin. contradiction.
Qed.

Lemma pad_from_inherit (series : list A) (i j : nat) (x : A) :
  series !! i = Some x → to_replace x = false → (i < j)%nat →
  (∀ k, (i < k <= j)%nat → ∃ w, series !! k = Some w ∧ to_replace w = true) →
  replace_ffill to_replace series !! j = Some x.
Proof.
  intros Hi Hx Hij Hgap.
  destruct (Hgap j ltac:(lia)) as (w & Hj & Hw).
  unfold replace_ffill. rewrite (pad_from_lookup (head series) series j w Hj), Hw.
  rewrite (last_filter_lookup _ (take j series) i x); [reflexivity| |exact Hx|].
  - rewrite lookup_take_lt by exact Hij. exact Hi.
  - intros k y Hk Hy.
    assert (k < j)%nat as Hkj.
    { apply lookup_lt_Some in Hy. rewrite length_take in Hy. lia. }
    rewrite lookup_take_lt in Hy by exact Hkj.
    destruct (Hgap k ltac:(lia)) as (w' & Hw' & Hr). congruence.
Qed.

(** Above the first cell that is kept every cell takes the value of the
    first cell of the column. *)
Lemma pad_from_leading (series : list A) (j : nat) :
  (∀ k, (k <= j)%nat → ∃ w, series !! k = Some w ∧ to_replace w = true) →
  replace_ffill to_replace series !! j = series !! 0%nat.
Proof.
  intros Hlead. destruct (Hlead j ltac:(lia)) as (w & Hj & Hw).
  destruct (Hlead 0%nat ltac:(lia)) as (w0 & H0 & _).
  unfold replace_ffill.
  rewrite (pad_from_lookup (head series) series j w Hj), Hw.
  rewrite head_lookup, H0.
  rewrite filter_none; [reflexivity|].
  apply Forall_forall. intros y [k Hk]%list_elem_of_lookup.
  assert (k < j)%nat as Hkj.
  { apply lookup_lt_Some in Hk. rewrite length_take in Hk. lia. }
  rewrite lookup_take_lt in Hk by exact Hkj.
  destruct (Hlead k ltac:(lia)) as (w' & Hw' & Hr). congruence.
Qed.

(** Below a cell that is kept, every cell of the result is a kept cell of
    the input, taken from that cell or from one below it. *)
Lemma pad_from_source (series : list A) (i j : nat) (x z : A) :
  series !! i = Some x → to_replace x = false → (i <= j)%nat →
  replace_ffill to_replace series !! j = Some z →
  ∃ k, (i <= k <= j)%nat ∧ series !! k = Some z ∧ to_replace z = false.
Proof.
  intros Hi Hx Hij Hz.
  destruct (series !! j) as [w|] eqn:Hj.
  2:{ apply lookup_lt_Some in Hz. apply lookup_ge_None in Hj.
      unfold replace_ffill in Hz. rewrite pad_from_length in Hz. lia. }
  unfold replace_ffill in Hz. rewrite (pad_from_lookup (head series) series j w Hj) in Hz.
  injection Hz as <-. destruct (to_replace w) eqn:Hw.
  2:{ exists j. split; [lia|]. split; [exact Hj|exact Hw]. }
  assert (i < j)%nat as Hlt.
  { destruct (decide (i = j)) as [-> | ?]; [congruence|lia]. }
  destruct (list.last (filter (λ y, to_replace y = false) (take j series)))
    as [v|] eqn:Hlast.
  - simpl. pose proof Hlast as Hv.
    apply last_Some_elem_of, list_elem_of_filter in Hv as [Hv _].
    apply last_filter_Some in Hlast as (l1 & l2 & Htake & Hl2).
    exists (length l1).
    assert (take j series !! length l1 = Some v) as Hk.
    { rewrite Htake. apply list_lookup_middle. reflexivity. }
    assert (length l1 < j)%nat as Hlen.
    { apply lookup_lt_Some in Hk. rewrite length_take in Hk. lia. }
    rewrite lookup_take_lt in Hk by exact Hlen.
    split; [|split; [exact Hk|exact Hv]]. split; [|lia].
    destruct (decide (i <= length l1)%nat) as [|Hgt]; [assumption|].
    exfalso.
    assert (take j series !! i = Some x) as Hxi
      by (rewrite lookup_take_lt by exact Hlt; exact Hi).
    rewrite Htake in Hxi.
    rewrite lookup_app_r in Hxi by lia.
    destruct (i - length l1)%nat as [|m] eqn:Hm; [lia|]. simpl in Hxi.
    rewrite Forall_forall in Hl2.
    apply (Hl2 x); [eapply list_elem_of_lookup_2, Hxi|exact Hx].
  - exfalso. apply last_None in Hlast.
    assert (x ∈ filter (λ y, to_replace y = false) (take j series)) as Hin.
    { apply list_elem_of_filter. split; [exact Hx|].
      apply list_elem_of_lookup. exists i. rewrite lookup_take_lt by exact Hlt.
      exact Hi. }
    rewrite Hlast in Hin. apply elem_of_nil in Hin. exact Hin.
Qed.

End Pad.

Lemma replace_ffill_nan (series : list cell) :
  forward_filled series (replace_ffill is_nan series).
Proof.
  split; [apply pad_from_length|]. split; [|split].
  - intros i s Hi. apply pad_from_kept; [exact Hi|reflexivity].
  - intros i j s Hi Hij Hgap.
    apply (pad_from_inherit is_nan series i j (Some s) Hi eq_refl Hij).
    intros k Hk. exists None. split; [apply Hgap, Hk|reflexivity].
  - intros j Hlead. rewrite (pad_from_leading is_nan series j);
      [apply Hlead; lia|].
    intros k Hk. exists None. split; [apply Hlead, Hk|reflexivity].
Qed.

(** X18.  [fill_empty] forward-fills the two vote columns: the lengths stay,
    every value that is present stays where it is, a missing cell takes the
    value of the nearest present cell above it, and the missing cells above
    the first present value stay missing. *)
Theorem fill_empty_forward_fills (senate_vote_type senate_vote : list cell) :
  forward_filled senate_vote_type
    (fill_empty senate_vote_type senate_vote).1
  ∧ forward_filled senate_vote (fill_empty senate_vote_type senate_vote).2.
Proof. split; apply replace_ffill_nan. Qed.

Lemma fill_empty_forward_fills_witness :
  fill_empty [None; Some "Voice"; None; None; Some "Ayes/Nays"; None]
             [None; None; Some "60/40"; None; None; None]
  = ([None; Some "Voice"; Some "Voice"; Some "Voice"; Some "Ayes/Nays";
      Some "Ayes/Nays"],
     [None; None; Some "60/40"; Some "60/40"; Some "60/40"; Some "60/40"])
  ∧ (fill_empty [None; Some "Voice"; None] []).1 !! 2%nat
    = Some (Some "Voice").
Proof.
  split; [reflexivity|].
  destruct (fill_empty_forward_fills [None; Some "Voice"; None] [])
    as [(_ & _ & H & _) _].
  apply (H 1%nat 2%nat "Voice"); [reflexivity|lia|].
  intros k Hk. assert (k = 2%nat) as -> by lia. reflexivity.
Defined.

(** X19.  After the two fills that [fix_columns] applies to a vote column,
    every cell from the first real value on (a cell that is neither missing
    nor one of the two "None" markers) holds a real value of the input,
    taken from that cell or from one between it and the cell filled. *)
Theorem fix_vote_column_real (series : list cell) (i j : nat) (x : cell) :
  series !! i = Some x → real_value x → (i <= j < length series)%nat →
  ∃ z k, fix_vote_column series !! j = Some z ∧ real_value z
         ∧ (i <= k <= j)%nat ∧ series !! k = Some z.
Proof.
  intros Hi [Hnan Hmark] [Hij Hj]. unfold fix_vote_column.
  set (first := replace_ffill is_none_assignment series).
  assert (first !! i = Some x) as Hfi
    by (apply pad_from_kept; assumption).
  assert (length first = length series) as Hlen by apply pad_from_length.
  destruct (lookup_lt_is_Some_2 (replace_ffill is_nan first) j) as [z Hz].
  { unfold replace_ffill. rewrite pad_from_length. lia. }
  destruct (pad_from_source is_nan first i j x z Hfi Hnan Hij Hz)
    as (k & Hk & Hfk & Hznan).
  destruct (pad_from_source is_none_assignment series i k x z Hi Hmark
              ltac:(lia) Hfk) as (k' & Hk' & Hsk & Hzmark).
  exists z, k'. split; [exact Hz|]. split; [split; assumption|].
  split; [lia|exact Hsk].
Qed.

Lemma fix_vote_column_real_witness :
  ∃ z k, fix_vote_column
           [Some "None (assignment)"; None; Some "Voice";
            Some "None (reassignment)"; None] !! 4%nat = Some z
         ∧ real_value z ∧ (2 <= k <= 4)%nat
         ∧ [Some "None (assignment)"; None; Some "Voice";
            Some "None (reassignment)"; None] !! k = Some z.
Proof.
  apply (fix_vote_column_real _ 2 4 (Some "Voice")).
  - reflexivity.
  - split; reflexivity.
  - simpl. lia.
Defined.

(** ** [encode_bio_data] *)

Lemma is_prefix_app (sub s t : string) :
  is_prefix sub s = true → is_prefix sub (s +:+ t) = true.
Proof.
  revert s. induction sub as [|a sub IH]; intros s; [reflexivity|].
  destruct s as [|b s]; [discriminate|]. rewrite app_cons. simpl.
  intros [Hab Hs]%andb_true_iff. rewrite Hab, (IH s Hs). reflexivity.
Qed.

Lemma contains_sub_app_r (sub s t : string) :
  contains_sub sub s = true → contains_sub sub (s +:+ t) = true.
Proof.
  induction s as [|b s IH].
  - simpl. rewrite orb_false_r. destruct sub; [|discriminate].
    intros _. destruct t; reflexivity.
  - rewrite app_cons. simpl. intros [H | H]%orb_true_iff.
    + change (String b (s +:+ t)) with (String b s +:+ t).
      rewrite (is_prefix_app sub (String b s) t H). reflexivity.
    + rewrite (IH H). apply orb_true_r.
Qed.

Lemma contains_sub_app_l (sub s t : string) :
  contains_sub sub s = true → contains_sub sub (t +:+ s) = true.
Proof.
  intros H. induction t as [|b t IH]; [exact H|].
  rewrite app_cons. simpl. rewrite IH. apply orb_true_r.
Qed.

(** X20.  The codes [encode_bio_data] writes stay in their ranges: the party
    code is -1 or 1 and is -1 only for the cell ["Democratic"]; the ABA code
    is between 0 and 4, each of the four known ratings gets its own code and
    any other cell gets 0.  A missing cell gives the default in every
    column: no recess, party 1, rating 0, not a woman, not a minority, no
    president number. *)
Theorem encode_bio_data_codes (PRESIDENTS : gmap string Z) (r : Bio.row) :
  let c := encode_bio_data PRESIDENTS r in
  (Bio.party_code c = -1 ∨ Bio.party_code c = 1)
  ∧ (Bio.party_code c = -1 ↔ Bio.party r = Some "Democratic")
  ∧ 0 <= Bio.aba_rating_code c <= 4
  ∧ (∀ rating code, (rating, code) ∈ aba_ratings →
       Bio.aba_rating_code c = code ↔ Bio.aba_rating r = Some rating)
  ∧ (Bio.recess r = None → Bio.recess_code c = false)
  ∧ (Bio.party r = None → Bio.party_code c = 1)
  ∧ (Bio.aba_rating r = None → Bio.aba_rating_code c = 0)
  ∧ (Bio.gender r = None → Bio.woman c = false)
  ∧ (Bio.race r = None → Bio.minority c = false)
  ∧ (Bio.president r = None → Bio.pres_num c = None).
Proof.
  simpl. unfold cell_eq.
  split; [case_bool_decide; auto|].
  split; [case_bool_decide; split; (congruence || lia || auto)|].
  split; [repeat case_bool_decide; lia|].
  split.
  { intros rating code Hin. unfold aba_ratings in Hin.
    repeat (apply elem_of_cons in Hin as [[= -> ->] | Hin]);
      [..|apply elem_of_nil in Hin; contradiction];
      repeat case_bool_decide; split; intros; congruence || lia. }
  repeat split; intros ->; reflexivity.
Qed.

Lemma encode_bio_data_codes_witness :
  let r := {| Bio.recess := None; Bio.party := Some "Democratic";
              Bio.aba_rating := Some "Well Qualified";
              Bio.gender := Some "Female"; Bio.race := None;
              Bio.president := None |} in
  Bio.aba_rating_code (encode_bio_data ∅ r) = 3
  ∧ Bio.party_code (encode_bio_data ∅ r) = -1
  ∧ Bio.minority (encode_bio_data ∅ r) = false.
Proof.
  intros r.
  destruct (encode_bio_data_codes ∅ r)
    as (_ & Hparty & _ & Haba & _ & _ & _ & _ & Hrace & _).
  split; [|split].
  - apply (Haba "Well Qualified" 3);
      [apply list_elem_of_further, list_elem_of_here|reflexivity].
  - apply Hparty. reflexivity.
  - apply Hrace. reflexivity.
Defined.

(** X21.  The minority flag is a substring test on the race cell: once a
    text contains one of the words "American", "Hispanic" or "Pacific", any
    text around it keeps the flag. *)
Theorem minority_substring (PRESIDENTS : gmap string Z) (r r' : Bio.row)
    (before text after : string) :
  Bio.race r = Some text →
  Bio.race r' = Some (before +:+ text +:+ after) →
  Bio.minority (encode_bio_data PRESIDENTS r) = true →
  Bio.minority (encode_bio_data PRESIDENTS r') = true.
Proof.
  simpl. intros -> ->. simpl.
  assert (∀ sub, contains_sub sub text = true →
                 contains_sub sub (before +:+ text +:+ after) = true) as H.
  { intros sub Hs. apply contains_sub_app_l, contains_sub_app_r, Hs. }
  intros [[Ha | Hh]%orb_true_iff | Hp]%orb_true_iff.
  - rewrite (H _ Ha). reflexivity.
  - rewrite (H _ Hh), orb_true_r. reflexivity.
  - rewrite (H _ Hp), !orb_true_r. reflexivity.
Qed.

Lemma minority_substring_witness :
  let bio (race : string) :=
    {| Bio.recess := None; Bio.party := None; Bio.aba_rating := None;
       Bio.gender := None; Bio.race := Some race; Bio.president := None |} in
  Bio.minority (encode_bio_data ∅ (bio "White/Hispanic (any race)")) = true.
Proof.
  intros bio.
  apply (minority_substring ∅ (bio "Hispanic")
           (bio "White/Hispanic (any race)") "White/" "Hispanic"
           " (any race)"); reflexivity.
Defined.

(** ** [munge_fjc], from the senate vote on *)

Lemma apply_rows_Ok {A B : Type} (f : A → result B) (l : list A)
    (l' : list B) :
  apply_rows f l = Ok l' ↔ Forall2 (λ a b, f a = Ok b) l l'.
Proof.
  revert l'. induction l as [|a l IH]; intros l'; simpl.
  - split; [intros [= <-]; constructor|intros ->%Forall2_nil_inv_l; reflexivity].
  - split.
    + destruct (f a) as [b|e] eqn:Ha; simpl; [|discriminate].
      destruct (apply_rows f l) as [bs|e] eqn:Hl; simpl; [|discriminate].
      intros [= <-]. constructor; [exact Ha|]. apply IH. reflexivity.
    + intros (b & bs & Hb & Hbs & ->)%Forall2_cons_inv_l.
      rewrite Hb. simpl. apply IH in Hbs. rewrite Hbs. reflexivity.
Qed.

Lemma apply_rows_total {A B : Type} (f : A → result B) (l : list A) :
  Forall (λ a, ∃ b, f a = Ok b) l → ∃ l', apply_rows f l = Ok l'.
Proof.
  induction 1 as [|a l [b Hb] _ [l' IH]]; simpl; [eauto|].
  rewrite Hb, IH. simpl. eauto.
Qed.

(** The first row on which [f] raises decides the exception of the whole
    call. *)
Lemma apply_rows_Raise {A B : Type} (f : A → result B) (l : list A) (a : A)
    (e : exn) :
  a ∈ l → f a = Raise e →
  ∃ e' a', apply_rows f l = Raise e' ∧ a' ∈ l ∧ f a' = Raise e'.
Proof.
  induction l as [|x l IH]; [intros []%elem_of_nil|].
  intros Hin Ha. simpl. destruct (f x) as [b|e'] eqn:Hx; simpl.
  - apply elem_of_cons in Hin as [-> | Hin]; [congruence|].
    destruct (IH Hin Ha) as (e' & a' & Hr & Ha' & Hf). rewrite Hr. simpl.
    exists e', a'. split; [reflexivity|]. split; [right; exact Ha'|exact Hf].
  - exists e', x. split; [reflexivity|]. split; [left|exact Hx].
Qed.

(** X22.  One row whose senate vote cannot be encoded aborts the whole of
    [munge_fjc], with [ValueError], [ZeroDivisionError] or [OverflowError],
    also when that row lies outside the service window and would have been
    dropped. *)
Theorem munge_tail_aborts START_YEAR END_YEAR (rows : list Wide.row)
    (r : Wide.row) (e : exn) :
  r ∈ rows → encode_senate_vote r = Raise e →
  ∃ e', munge_tail START_YEAR END_YEAR rows = Raise e'
        ∧ (e' = ValueError ∨ e' = ZeroDivisionError ∨ e' = OverflowError).
Proof.
  intros Hin Hr. unfold munge_tail.
  destruct (apply_rows_Raise encode_senate_vote rows r e Hin Hr)
    as (e' & a' & Happ & _ & Ha').
  rewrite Happ. simpl. exists e'. split; [reflexivity|].
  destruct (encode_senate_vote_cases a') as [[q Hq] | [[H | [H | H]] _]];
    [congruence|left; congruence|right; left; congruence
    |right; right; congruence].
Qed.

Lemma munge_tail_aborts_witness :
  ¬ in_window 1950 2020 old_judge
  ∧ ∃ e', munge_tail 1950 2020 [smith_jane; old_judge] = Raise e'
          ∧ (e' = ValueError ∨ e' = ZeroDivisionError ∨ e' = OverflowError).
Proof.
  split.
  - intros [H _]. vm_compute in H. discriminate.
  - apply (munge_tail_aborts 1950 2020 [smith_jane; old_judge] old_judge
             ValueError).
    + apply list_elem_of_further, list_elem_of_here.
    + reflexivity.
Defined.

Lemma encode_senate_vote_Ok (r r1 : Wide.row) :
  encode_senate_vote r = Ok r1 → ∃ q, r1 = Wide.set_senate_percent q r.
Proof.
  intros H.
  destruct (encode_senate_vote_cases r) as [[q Hq] | [[Hr | [Hr | Hr]] _]];
    [|congruence|congruence|congruence].
  exists q. congruence.
Qed.

(** What [name_perms] returns for a row that has been through the vote
    encoding and the window filter. *)
Lemma name_perms_of_kept END_YEAR (q : Q) (r : Wide.row) :
  normalised (Wide.first_name r) ≠ "" →
  ∃ r', name_perms (time_limit_columns END_YEAR (Wide.set_senate_percent q r))
        = Ok r'
        ∧ Wide.nid r' = Wide.nid r
        ∧ Wide.judge_name r' = Wide.judge_name r
        ∧ Wide.name_perm7 r' = normalised (Wide.last_name r)
        ∧ Wide.senate_percent r' = Some q
        ∧ Wide.start_year r' = start_year_of r
        ∧ Wide.end_year r' = end_year_of END_YEAR r.
Proof.
  intros (a & rest & Ha)%first_char_ok. eexists. split.
  - apply (name_perms_ok _ a rest). exact Ha.
  - repeat split; reflexivity.
Qed.

Lemma range_index_lookup (rows : list Wide.row) (i : nat) (r : Wide.row) :
  rows !! i = Some r → (Z.of_nat i, r) ∈ Wide.range_index rows.
Proof.
  intros Hi. apply list_elem_of_lookup. exists i. unfold Wide.range_index.
  apply lookup_zip_Some. split; [|exact Hi].
  rewrite list_lookup_fmap, lookup_seq_lt by (eapply lookup_lt_Some, Hi).
  reflexivity.
Qed.

(** X23.  When the table has at most 1382851 rows, every vote can be encoded
    and every row inside the service window has a first name that is not
    empty once normalised, [munge_fjc] goes through from the senate vote on.
    Its result has a row for each input row inside the window and none for
    the others; each carries the identity and judge name of its input row,
    a senate percent, both years, and the normalised last name as
    [name_perm7]. *)
Theorem munge_tail_ok START_YEAR END_YEAR (rows : list Wide.row) :
  Z.of_nat (length rows) <= 1382851 →
  Forall (λ r, (∃ r1, encode_senate_vote r = Ok r1)
               ∧ (in_window START_YEAR END_YEAR r →
                  normalised (Wide.first_name r) ≠ "")) rows →
  ∃ out,
    munge_tail START_YEAR END_YEAR rows = Ok out
    ∧ (length out <= length rows)%nat
    ∧ Forall (λ r', ∃ r, r ∈ rows ∧ in_window START_YEAR END_YEAR r
                         ∧ Wide.nid r' = Wide.nid r
                         ∧ Wide.judge_name r' = Wide.judge_name r
                         ∧ Wide.name_perm7 r' = normalised (Wide.last_name r)
                         ∧ is_Some (Wide.senate_percent r')
                         ∧ Wide.start_year r' = start_year_of r
                         ∧ Wide.end_year r' = end_year_of END_YEAR r) out
    ∧ ∀ r, r ∈ rows → in_window START_YEAR END_YEAR r →
        ∃ r', r' ∈ out ∧ Wide.nid r' = Wide.nid r
              ∧ Wide.name_perm7 r' = normalised (Wide.last_name r).
Proof.
  intros Hlen Hrows. unfold munge_tail.
  destruct (apply_rows_total encode_senate_vote rows) as [rows1 Hrows1].
  { eapply Forall_impl; [exact Hrows|]. intros r [H _]. exact H. }
  rewrite Hrows1. simpl. apply apply_rows_Ok in Hrows1.
  pose proof (Forall2_length _ _ _ Hrows1) as Hlen1.
  rewrite name_changes_missing
    by (apply time_limit_range_index_labels; lia). simpl.
  set (df := time_limit START_YEAR END_YEAR (Wide.range_index rows1)).
  rewrite Forall_forall in Hrows.
  (* every row of [df] comes from a row of the input inside the window *)
  assert (∀ x, x ∈ df →
            ∃ r q, r ∈ rows ∧ in_window START_YEAR END_YEAR r
                   ∧ x.2 = time_limit_columns END_YEAR
                             (Wide.set_senate_percent q r)) as Hdf.
  { intros x (r1 & Hin & Hx & He & Hs)%time_limit_spec.
    apply elem_of_zip_r, list_elem_of_lookup in Hin as [i Hi].
    destruct (Forall2_lookup_r _ _ _ _ _ Hrows1 Hi) as (r & Hri & Henc).
    apply encode_senate_vote_Ok in Henc as [q ->].
    exists r, q. split; [eapply list_elem_of_lookup_2, Hri|].
    split; [split; assumption|exact Hx]. }
  destruct (apply_rows_total name_perms (snd <$> df)) as [out Hout].
  { apply Forall_forall. intros a (x & -> & Hx)%list_elem_of_fmap.
    destruct (Hdf x Hx) as (r & q & Hr & Hwin & ->).
    destruct (name_perms_of_kept END_YEAR q r) as (r' & Hr' & _);
      [apply (Hrows r Hr), Hwin|eauto]. }
  exists out. split; [exact Hout|]. apply apply_rows_Ok in Hout.
  pose proof (Forall2_length _ _ _ Hout) as Hlen2.
  rewrite length_fmap in Hlen2.
  split.
  { rewrite <- Hlen2, Hlen1.
    etransitivity; [apply time_limit_length|].
    unfold Wide.range_index. rewrite length_zip, length_fmap, length_seq. lia. }
  split.
  - apply Forall_forall. intros r' [i Hi]%list_elem_of_lookup.
    destruct (Forall2_lookup_r _ _ _ _ _ Hout Hi) as (a & Ha & Hperm).
    apply list_lookup_fmap_Some in Ha as (x & -> & Hx).
    destruct (Hdf x (list_elem_of_lookup_2 _ _ _ Hx)) as (r & q & Hr & Hwin & Heq).
    rewrite Heq in Hperm.
    destruct (name_perms_of_kept END_YEAR q r) as (r'' & Hr'' & Hprops);
      [apply (Hrows r Hr), Hwin|].
    assert (r' = r'') as -> by congruence.
    exists r. split; [exact Hr|]. split; [exact Hwin|].
    destruct Hprops as (? & ? & ? & Hq & ? & ?).
    repeat split; try assumption. rewrite Hq. eauto.
  - intros r [i Hi]%list_elem_of_lookup Hwin.
    destruct (Forall2_lookup_l _ _ _ _ _ Hrows1 Hi) as (r1 & Hri & Henc).
    apply encode_senate_vote_Ok in Henc as [q ->].
    assert ((Z.of_nat i, time_limit_columns END_YEAR
                           (Wide.set_senate_percent q r)) ∈ df) as Hx.
    { apply time_limit_spec. exists (Wide.set_senate_percent q r).
      split; [apply range_index_lookup, Hri|]. split; [reflexivity|].
      exact Hwin. }
    apply list_elem_of_lookup in Hx as [k Hk].
    assert ((snd <$> df) !! k
            = Some (time_limit_columns END_YEAR (Wide.set_senate_percent q r)))
      as Hk' by (rewrite list_lookup_fmap, Hk; reflexivity).
    destruct (Forall2_lookup_l _ _ _ _ _ Hout Hk') as (r' & Hr' & Hperm).
    destruct (name_perms_of_kept END_YEAR q r) as (r'' & Hr'' & Hprops);
      [apply (Hrows r (list_elem_of_lookup_2 _ _ _ Hi)), Hwin|].
    assert (r' = r'') as -> by congruence.
    exists r''. split; [eapply list_elem_of_lookup_2, Hr'|].
    destruct Hprops as (? & ? & ? & _). split; assumption.
Qed.

Lemma munge_tail_ok_witness :
  ∃ out, munge_tail 1950 2020 [smith_john; smith_jane; king] = Ok out
         ∧ (length out <= 3)%nat
         ∧ ∃ r', r' ∈ out ∧ Wide.nid r' = 1386716
                 ∧ Wide.name_perm7 r' = "KING".
Proof.
  destruct (munge_tail_ok 1950 2020 [smith_john; smith_jane; king])
    as (out & Hout & Hlen & _ & Hall).
  - simpl. lia.
  - repeat constructor; try (eexists; reflexivity); discriminate.
  - exists out. split; [exact Hout|]. split; [exact Hlen|].
    apply (Hall king); [do 2 apply list_elem_of_further; apply list_elem_of_here|].
    split; reflexivity.
Defined.

(** ** The column names of [fix_columns] *)

Lemma lower_char_idemp (c : ascii) : lower_char (lower_char c) = lower_char c.
Proof. destruct c as [[] [] [] [] [] [] [] []]; reflexivity. Qed.

Lemma lower_char_space (c : ascii) :
  lower_char c = " "%char ↔ c = " "%char.
Proof. destruct c as [[] [] [] [] [] [] [] []]; split; (reflexivity || discriminate). Qed.

Lemma lower_char_underscore (c : ascii) :
  lower_char (if decide (c = " "%char) then "_"%char else c)
  = if decide (lower_char c = " "%char) then "_"%char else lower_char c.
Proof.
  destruct (decide (c = " "%char)) as [-> | Hc]; [reflexivity|].
  rewrite decide_False; [reflexivity|]. rewrite lower_char_space. exact Hc.
Qed.

Lemma canonical_name_idemp (name : string) :
  replace_space (str_lower (replace_space (str_lower name)))
  = replace_space (str_lower name).
Proof.
  induction name as [|c name IH]; [reflexivity|]. simpl. rewrite IH. f_equal.
  destruct (decide (lower_char c = " "%char)) as [Hc | Hc].
  - reflexivity.
  - rewrite lower_char_idemp, decide_False by exact Hc. reflexivity.
Qed.

(** X24.  The first two renamings of [fix_columns] put a column name in a
    canonical form, lower case with underscores for spaces: doing them again
    changes nothing, the result has no space, and lower-casing it changes
    nothing.  A name that none of the three rename tables holds comes out of
    [fix_columns] in exactly that form. *)
Theorem fix_column_name_canonical
    (SERVICE_RENAMES CAREER_RENAMES DEMOGRAPHICS_RENAMES : gmap string string)
    (name : string) :
  let canonical := replace_space (str_lower name) in
  replace_space (str_lower canonical) = canonical
  ∧ PyStr.contains_char " " canonical = false
  ∧ str_lower canonical = canonical
  ∧ (SERVICE_RENAMES !! canonical = None →
     CAREER_RENAMES !! canonical = None →
     DEMOGRAPHICS_RENAMES !! canonical = None →
     fix_column_name SERVICE_RENAMES CAREER_RENAMES DEMOGRAPHICS_RENAMES name
     = canonical).
Proof.
  simpl. split; [apply canonical_name_idemp|]. split; [|split].
  - induction name as [|c name IH]; [reflexivity|]. simpl.
    destruct (decide (lower_char c = " "%char)) as [Hc | Hc].
    + rewrite decide_False by discriminate. exact IH.
    + rewrite decide_False by exact Hc. exact IH.
  - induction name as [|c name IH]; [reflexivity|]. simpl. rewrite IH. f_equal.
    destruct (decide (lower_char c = " "%char)); [reflexivity|].
    apply lower_char_idemp.
  - intros Hs Hc Hd. unfold fix_column_name, rename.
    rewrite Hs. simpl. rewrite Hc. simpl. rewrite Hd. reflexivity.
Qed.

Lemma fix_column_name_canonical_witness :
  fix_column_name {["court_name" := "court"]} ∅ ∅ "Judge Name" = "judge_name"
  ∧ fix_column_name {["court_name" := "court"]} ∅ ∅ "Court Name" = "court".
Proof.
  split; [|vm_compute; reflexivity].
  apply (fix_column_name_canonical {["court_name" := "court"]} ∅ ∅
           "Judge Name"); vm_compute; reflexivity.
Defined.

(** ** A judge who is still serving *)

(** X25.  A row without a termination date is given [END_YEAR] as its end
    year.  When the window is not empty ([START_YEAR - 2 < END_YEAR]), such a
    row of the table is kept exactly when its start year is present and at
    most [END_YEAR]. *)
Theorem time_limit_sitting START_YEAR END_YEAR (df : Wide.frame) (label : Z)
    (r : Wide.row) :
  (label, r) ∈ df → Wide.termination_date r = None →
  START_YEAR - 2 < END_YEAR →
  end_year_of END_YEAR r = Some END_YEAR
  ∧ (retained START_YEAR END_YEAR df label r
     ↔ cell_le (start_year_of r) END_YEAR = true).
Proof.
  intros Hin Hterm Hwin.
  assert (end_year_of END_YEAR r = Some END_YEAR) as He
    by (unfold end_year_of; rewrite Hterm; reflexivity).
  split; [exact He|]. unfold retained. rewrite time_limit_spec. split.
  - intros (r2 & _ & Heq & _ & Hs). simpl in Heq.
    apply (f_equal Wide.start_year) in Heq. simpl in Heq.
    rewrite Heq. exact Hs.
  - intros Hs. exists r. split; [exact Hin|]. split; [reflexivity|].
    split; [|exact Hs]. rewrite He. simpl. apply bool_decide_eq_true. lia.
Qed.

Lemma time_limit_sitting_witness :
  retained 1950 2020 [(0, smith_jane)] 0 smith_jane.
Proof.
  apply (time_limit_sitting 1950 2020 [(0, smith_jane)] 0 smith_jane);
    [apply list_elem_of_here|reflexivity|lia|reflexivity].
Defined.
